(** * gym-tracker: progress statistics, trend line and workout-session store

    A shallow embedding of the three pieces of logic of the gym-tracker
    repository that carry behaviour of their own:

    - [Trend]: [calculateTrendLine] of [components/ProgressChart.tsx];
    - [Stats]: the SQL function [get_exercise_progress_stats];
    - [Store]: the zustand store of [stores/workoutStore.ts], together with
      the remote tables it talks to and its [persist] configuration.

    JavaScript numbers are kept abstract in [Trend] (a class of arithmetic
    operations), so that the one definition of [calculateTrendLine] is read
    both over the rationals, where the least-squares property is stated, and
    over IEEE 754 binary64, which is what the browser runs. *)

From Stdlib Require Import List Bool Arith ZArith QArith Qminmax Lia Lqa.
From Stdlib Require Import String DecimalString.
From Stdlib Require Import Permutation Sorted.
From Stdlib Require Import Floats Uint63.
Import ListNotations.

Set Implicit Arguments.

(* ================================================================== *)
(** * Trend line (components/ProgressChart.tsx)                        *)
(* ================================================================== *)

Module Trend.

(** The arithmetic a JavaScript [number] offers to [calculateTrendLine]:
    the conversion of an array index (or of [data.length]) and the four
    operations. *)
Class Number (T : Type) : Type := {
  of_index : nat -> T;
  nadd : T -> T -> T;
  nsub : T -> T -> T;
  nmul : T -> T -> T;
  ndiv : T -> T -> T
}.

Declare Scope num_scope.
Delimit Scope num_scope with num.
Infix "+" := nadd : num_scope.
Infix "-" := nsub : num_scope.
Infix "*" := nmul : num_scope.
Infix "/" := ndiv : num_scope.

(** Exact rational arithmetic. *)
#[export] Instance Number_Q : Number Q := {
  of_index i := inject_Z (Z.of_nat i);
  nadd := Qplus;
  nsub := Qminus;
  nmul := Qmult;
  ndiv := Qdiv
}.

(** IEEE 754 binary64, the representation of a JavaScript [number].  An
    index is converted exactly as long as it is below 2^53. *)
#[export] Instance Number_float : Number float := {
  of_index i := PrimFloat.of_uint63 (Uint63.of_Z (Z.of_nat i));
  nadd := PrimFloat.add;
  nsub := PrimFloat.sub;
  nmul := PrimFloat.mul;
  ndiv := PrimFloat.div
}.

Section Generic.
Context {T : Type} `{Number T}.
Local Open Scope num_scope.

(** [Array.prototype.reduce] with the callback receiving the accumulator,
    the element and its index; [reduce_from i] is the loop once it has
    reached index [i]. *)
Fixpoint reduce_from (f : T -> T -> nat -> T) (i : nat) (acc : T)
    (data : list T) : T :=
  match data with
  | [] => acc
  | y :: rest => reduce_from f (S i) (f acc y i) rest
  end.

Definition reduce (f : T -> T -> nat -> T) (init : T) (data : list T) : T :=
  reduce_from f 0 init data.

(** [Array.prototype.map] with the callback receiving element and index. *)
Fixpoint map_from (f : T -> nat -> T) (i : nat) (data : list T) : list T :=
  match data with
  | [] => []
  | y :: rest => f y i :: map_from f (S i) rest
  end.

Definition map_indexed (f : T -> nat -> T) (data : list T) : list T :=
  map_from f 0 data.

(** The constants [slope] and [intercept] of [calculateTrendLine], with
    the sums they are computed from. *)
Definition trendCoefficients (data : list T) : T * T :=
  let n := of_index (List.length data) in
  let sumX := reduce (fun sum _ i => sum + of_index i) (of_index 0) data in
  let sumY := reduce (fun sum y _ => sum + y) (of_index 0) data in
  let sumXY := reduce (fun sum y i => sum + of_index i * y) (of_index 0) data in
  let sumXX :=
    reduce (fun sum _ i => sum + of_index i * of_index i) (of_index 0) data in
  let slope := (n * sumXY - sumX * sumY) / (n * sumXX - sumX * sumX) in
  let intercept := (sumY - slope * sumX) / n in
  (slope, intercept).

(** [function calculateTrendLine(data: number[]): number[]]. *)
Definition calculateTrendLine (data : list T) : list T :=
  if (List.length data <? 2)%nat then data
  else
    let '(slope, intercept) := trendCoefficients data in
    map_indexed (fun _ i => slope * of_index i + intercept) data.

End Generic.

(** ** Sums and squared errors over the rationals *)

Local Open Scope Q_scope.






Local Close Scope Q_scope.



End Trend.

(* ================================================================== *)
(** * Progress statistics (SQL function get_exercise_progress_stats)   *)
(* ================================================================== *)

Module Stats.

(** A row of [progress_history].  [weight] is [DECIMAL(10, 2) NOT NULL];
    decimals are exact rationals here, the rounding PostgreSQL applies to the
    digits of a quotient is not modelled.  [created_at] is a point in time
    (microseconds since the epoch); the application never writes it, so the
    column default fills it and it is not null, as in the TypeScript
    interface [ProgressHistory]. *)
Record progress_history : Type := {
  id : string;
  exercise_id : string;
  weight : Q;
  notes : option string;
  created_at : Z
}.

(** What evaluating a query gives: its value, or the error PostgreSQL
    raises for a zero divisor ([ERROR: division by zero]), which aborts the
    function. *)
Inductive sql_result (A : Type) : Type :=
| Returns (a : A)
| DivisionByZero.
Arguments DivisionByZero {A}.

Definition bind {A B : Type} (r : sql_result A) (k : A -> sql_result B)
  : sql_result B :=
  match r with
  | Returns a => k a
  | DivisionByZero => DivisionByZero
  end.

Notation "x <- r ;; k" := (bind r (fun x => k))
  (at level 61, r at next level, right associativity).

(** The operator [/] on [numeric]. *)
Definition numeric_div (a b : Q) : sql_result Q :=
  if Qeq_bool b 0 then DivisionByZero else Returns (a / b)%Q.

(** A division that always fails: evaluating the function with it tells
    whether any division is performed at all. *)
Definition no_division (a b : Q) : sql_result Q := DivisionByZero.

(** Operators are strict: a NULL operand gives NULL, and the operator is
    not evaluated. *)
Definition sql_sub (a b : option Q) : option Q :=
  match a, b with
  | Some x, Some y => Some (x - y)%Q
  | _, _ => None
  end.

Definition sql_mul (a b : option Q) : option Q :=
  match a, b with
  | Some x, Some y => Some (x * y)%Q
  | _, _ => None
  end.

Definition sql_div (div : Q -> Q -> sql_result Q) (a b : option Q)
  : sql_result (option Q) :=
  match a, b with
  | Some x, Some y => q <- div x y ;; Returns (Some q)
  | _, _ => Returns None
  end.

(** A row of the CTE [progress_data]. *)
Record progress_data_row : Type := {
  pd_weight : Q;
  pd_created_at : Z;
  rn : nat
}.

(** [p_start_date IS NULL OR ph.created_at >= p_start_date]. *)
Definition from_start (p_start_date : option Z) (ph : progress_history) : bool :=
  match p_start_date with
  | None => true
  | Some d => (d <=? created_at ph)%Z
  end.

(** [p_end_date IS NULL OR ph.created_at <= p_end_date]. *)
Definition until_end (p_end_date : option Z) (ph : progress_history) : bool :=
  match p_end_date with
  | None => true
  | Some d => (created_at ph <=? d)%Z
  end.

(** The [WHERE] clause of [progress_data]. *)
Definition selected (p_exercise_id : string) (p_start_date p_end_date : option Z)
    (ph : progress_history) : bool :=
  String.eqb (exercise_id ph) p_exercise_id
  && from_start p_start_date ph
  && until_end p_end_date ph.

(** [ORDER BY ph.created_at DESC].  PostgreSQL leaves the order of rows with
    the same [created_at] open; this sort keeps them in scan order. *)
Fixpoint insert_desc (ph : progress_history) (sorted : list progress_history)
  : list progress_history :=
  match sorted with
  | [] => [ph]
  | ph' :: rest =>
      if (created_at ph' <=? created_at ph)%Z then ph :: sorted
      else ph' :: insert_desc ph rest
  end.

Definition order_by_created_at_desc (rows : list progress_history)
  : list progress_history :=
  fold_right insert_desc [] rows.

(** [ROW_NUMBER() OVER (...)]: the rows numbered from [k] on. *)
Fixpoint row_number_from (k : nat) (rows : list progress_history)
  : list progress_data_row :=
  match rows with
  | [] => []
  | ph :: rest =>
      {| pd_weight := weight ph; pd_created_at := created_at ph; rn := k |}
      :: row_number_from (S k) rest
  end.

(** The CTE [progress_data]. *)
Definition progress_data (table : list progress_history)
    (p_exercise_id : string) (p_start_date p_end_date : option Z)
  : list progress_data_row :=
  row_number_from 1
    (order_by_created_at_desc
       (filter (selected p_exercise_id p_start_date p_end_date) table)).

(** Aggregates over the column [weight] of [progress_data]. *)
Definition COUNT (pd : list progress_data_row) : Z := Z.of_nat (List.length pd).

Definition MAX (pd : list progress_data_row) : option Q :=
  match pd with
  | [] => None
  | r :: rest => Some (fold_left (fun m r' => Qmax m (pd_weight r')) rest (pd_weight r))
  end.

Definition MIN (pd : list progress_data_row) : option Q :=
  match pd with
  | [] => None
  | r :: rest => Some (fold_left (fun m r' => Qmin m (pd_weight r')) rest (pd_weight r))
  end.

Definition SUM (pd : list progress_data_row) : Q :=
  fold_left (fun s r => (s + pd_weight r)%Q) pd 0%Q.

(** [AVG] is NULL over no row, and the sum divided by the count otherwise. *)
Definition AVG (div : Q -> Q -> sql_result Q) (pd : list progress_data_row)
  : sql_result (option Q) :=
  match pd with
  | [] => Returns None
  | _ :: _ => q <- div (SUM pd) (inject_Z (COUNT pd)) ;; Returns (Some q)
  end.

(** [(SELECT weight FROM progress_data WHERE rn = 1)]. *)
Definition weight_where_rn_1 (pd : list progress_data_row) : option Q :=
  option_map pd_weight (find (fun r => (rn r =? 1)%nat) pd).

(** The row of the CTE [stats]. *)
Record stats_row : Type := {
  s_total_sessions : Z;
  s_max_weight : option Q;
  s_min_weight : option Q;
  s_avg_weight : option Q;
  s_latest_weight : option Q
}.

(** The row the function returns ([RETURNS TABLE (...)]). *)
Record ProgressStats : Type := {
  total_sessions : Z;
  max_weight : option Q;
  min_weight : option Q;
  avg_weight : option Q;
  latest_weight : option Q;
  weight_progression : option Q
}.

Section Division.
(** The division the queries are evaluated with. *)
Variable div : Q -> Q -> sql_result Q.

(** The CTE [stats]: one row, whatever [progress_data] holds. *)
Definition stats_with (pd : list progress_data_row) : sql_result stats_row :=
  avg <- AVG div pd ;;
  Returns {| s_total_sessions := COUNT pd;
             s_max_weight := MAX pd;
             s_min_weight := MIN pd;
             s_avg_weight := avg;
             s_latest_weight := weight_where_rn_1 pd |}.

(** The [CASE] of the final [SELECT]; only the branch taken is evaluated. *)
Definition progression_with (s : stats_row) : sql_result (option Q) :=
  if (1 <? s_total_sessions s)%Z then
    q <- sql_div div (sql_sub (s_latest_weight s) (s_min_weight s))
                     (s_min_weight s) ;;
    Returns (sql_mul q (Some 100%Q))
  else Returns (Some 0%Q).

Definition get_exercise_progress_stats_with (table : list progress_history)
    (p_exercise_id : string) (p_start_date p_end_date : option Z)
  : sql_result ProgressStats :=
  s <- stats_with (progress_data table p_exercise_id p_start_date p_end_date) ;;
  wp <- progression_with s ;;
  Returns {| total_sessions := s_total_sessions s;
             max_weight := s_max_weight s;
             min_weight := s_min_weight s;
             avg_weight := s_avg_weight s;
             latest_weight := s_latest_weight s;
             weight_progression := wp |}.
End Division.

(** The function as PostgreSQL runs it. *)
Definition stats : list progress_data_row -> sql_result stats_row :=
  stats_with numeric_div.

Definition get_exercise_progress_stats :
  list progress_history -> string -> option Z -> option Z ->
  sql_result ProgressStats :=
  get_exercise_progress_stats_with numeric_div.

(** The observations the statistics are over: the rows of the exercise
    inside the date range. *)
Definition observations (table : list progress_history)
    (p_exercise_id : string) (p_start_date p_end_date : option Z)
  : list progress_history :=
  filter (selected p_exercise_id p_start_date p_end_date) table.

(** ** Orders and sample tables *)

(** [a] is not earlier than [b]: the order of [ORDER BY created_at DESC]. *)
Definition not_earlier (a b : progress_history) : Prop :=
  (created_at b <= created_at a)%Z.

Local Open Scope string_scope.
Local Open Scope Q_scope.

(** The three observations 60, 65 and 70 of the specification, recorded in
    that order, beside a row of another exercise. *)
Definition bench_history : list progress_history :=
  [ {| id := "a"; exercise_id := "bench"; weight := 60; notes := None;
       created_at := 1 |};
    {| id := "b"; exercise_id := "bench"; weight := 65; notes := None;
       created_at := 2 |};
    {| id := "c"; exercise_id := "squat"; weight := 100; notes := None;
       created_at := 3 |};
    {| id := "d"; exercise_id := "bench"; weight := 70; notes := None;
       created_at := 4 |} ].


End Stats.

(* ================================================================== *)
(** * Workout-session store (stores/workoutStore.ts)                   *)
(* ================================================================== *)

Module Store.

Local Open Scope string_scope.

(** ** JavaScript [Map] with string keys

    The entries in insertion order; the keys of a [Map] are pairwise
    distinct ([well_formed]), which [set] maintains. *)
Section JSMap.
Variable V : Type.

Definition Map : Type := list (string * V).

Definition well_formed (m : Map) : Prop := NoDup (map fst m).

(** [new Map()] *)
Definition empty : Map := [].

(** [m.get(key)] *)
Fixpoint get (m : Map) (key : string) : option V :=
  match m with
  | [] => None
  | (k, v) :: rest => if String.eqb k key then Some v else get rest key
  end.

(** [m.set(key, value)]: the value of a known key is replaced in place, a
    new key goes to the end. *)
Fixpoint set (m : Map) (key : string) (value : V) : Map :=
  match m with
  | [] => [(key, value)]
  | (k, v) :: rest =>
      if String.eqb k key then (k, value) :: rest
      else (k, v) :: set rest key value
  end.

(** [Array.from(m.entries())] *)
Definition entries (m : Map) : list (string * V) := m.

(** [Array.from(m.values())] *)
Definition values (m : Map) : list V := map snd m.

(** [new Map(iterable)]: every pair of the iterable is [set] in turn. *)
Definition new_Map (iterable : list (string * V)) : Map :=
  fold_left (fun m kv => set m (fst kv) (snd kv)) iterable empty.
End JSMap.

Arguments empty {V}.

(** ** Records of types/database.ts *)

Record WorkoutSession : Type := {
  ws_id : string;
  ws_day_id : string;
  ws_started_at : Z;
  ws_completed_at : option Z;
  ws_notes : option string;
  ws_created_at : Z
}.

(** The object the cache holds for one set, which is also the row sent to
    [session_exercises].  The cache builds it without [id] and [created_at],
    which the database fills in, hence the options. *)
Record SessionExercise : Type := {
  se_id : option string;
  se_session_id : string;
  se_exercise_id : string;
  se_weight_used : option Q;
  se_sets_completed : Z;
  se_reps_completed : option string;
  se_notes : option string;
  se_created_at : option Z
}.

(** ** The store *)

Record WorkoutStore : Type := {
  currentSession : option WorkoutSession;
  sessionExercises : Map SessionExercise;
  isLoading : bool;
  error : option string
}.

(** The initial state given to [create]. *)
Definition initial_store : WorkoutStore :=
  {| currentSession := None;
     sessionExercises := empty;
     isLoading := false;
     error := None |}.

(** [set({ field: value })] of zustand, field by field. *)
Definition set_currentSession (c : option WorkoutSession) (s : WorkoutStore) :=
  {| currentSession := c;
     sessionExercises := sessionExercises s;
     isLoading := isLoading s;
     error := error s |}.

Definition set_sessionExercises (m : Map SessionExercise) (s : WorkoutStore) :=
  {| currentSession := currentSession s;
     sessionExercises := m;
     isLoading := isLoading s;
     error := error s |}.

Definition set_isLoading (b : bool) (s : WorkoutStore) :=
  {| currentSession := currentSession s;
     sessionExercises := sessionExercises s;
     isLoading := b;
     error := error s |}.

Definition set_error (e : option string) (s : WorkoutStore) :=
  {| currentSession := currentSession s;
     sessionExercises := sessionExercises s;
     isLoading := isLoading s;
     error := e |}.

(** ** The remote tables and the requests sent to them *)

Record Remote : Type := {
  workout_sessions : list WorkoutSession;
  progress_history : list Stats.progress_history;
  session_exercises : list SessionExercise
}.

Definition with_workout_sessions (t : list WorkoutSession) (r : Remote) :=
  {| workout_sessions := t;
     progress_history := progress_history r;
     session_exercises := session_exercises r |}.

Definition with_progress_history (t : list Stats.progress_history) (r : Remote) :=
  {| workout_sessions := workout_sessions r;
     progress_history := t;
     session_exercises := session_exercises r |}.

Definition with_session_exercises (t : list SessionExercise) (r : Remote) :=
  {| workout_sessions := workout_sessions r;
     progress_history := progress_history r;
     session_exercises := t |}.

Inductive request : Type :=
| InsertWorkoutSession (day_id : string)
| InsertProgressHistory (exercise_id : string) (weight : Q)
| UpdateCompletedAt (session_id : string) (completed_at : Z)
| InsertSessionExercises (rows : list SessionExercise)
| SelectOpenSession (day_id : string).

(** How the backend answers an awaited request.  A request that is refused
    (network, authentication, policy, constraint) writes nothing, and the
    client reports it in the [error] field of the value the promise resolves
    to, which is why callers test it ([if (error) throw error]); [Throws] is
    an awaited expression that raises. *)
Inductive reply : Type :=
| Succeeds
| Fails (message : string)
| Throws (message : string).

(** The store, the tables behind it and the requests issued so far (the
    latest first). *)
Record World : Type := {
  store : WorkoutStore;
  remote : Remote;
  requests : list request
}.

Definition initial_world : World :=
  {| store := initial_store;
     remote := {| workout_sessions := [];
                  progress_history := [];
                  session_exercises := [] |};
     requests := [] |}.

Definition with_store (f : WorkoutStore -> WorkoutStore) (w : World) : World :=
  {| store := f (store w); remote := remote w; requests := requests w |}.

Definition with_remote (f : Remote -> Remote) (w : World) : World :=
  {| store := store w; remote := f (remote w); requests := requests w |}.

Definition send (q : request) (w : World) : World :=
  {| store := store w; remote := remote w; requests := q :: requests w |}.

(** ** Actions *)

(** [startWorkoutSession(dayId)].  [uuid] and [now] are what
    [gen_random_uuid()] and [NOW()] give the inserted row. *)
Definition startWorkoutSession (r : reply) (uuid : string) (now : Z)
    (dayId : string) (w : World) : World :=
  let w := with_store (fun s => set_error None (set_isLoading true s)) w in
  let w := send (InsertWorkoutSession dayId) w in
  match r with
  | Succeeds =>
      let data := {| ws_id := uuid; ws_day_id := dayId; ws_started_at := now;
                     ws_completed_at := None; ws_notes := None;
                     ws_created_at := now |} in
      let w := with_remote
                 (fun t => with_workout_sessions (workout_sessions t ++ [data]) t)
                 w in
      with_store (fun s => set_isLoading false (set_currentSession (Some data) s)) w
  | Fails message | Throws message =>
      with_store (fun s => set_isLoading false (set_error (Some message) s)) w
  end.

(** The key [`${exerciseId}-${setIndex}`]. *)
Definition key (exerciseId : string) (setIndex : nat) : string :=
  exerciseId ++ "-" ++ NilEmpty.string_of_uint (Nat.to_uint setIndex).

(** [{ ...existing, exercise_id, session_id, weight_used, sets_completed }] *)
Definition updatedExercise (existing : option SessionExercise)
    (exerciseId : string) (sessionId : string) (weight : Q) : SessionExercise :=
  {| se_id := match existing with Some e => se_id e | None => None end;
     se_session_id := sessionId;
     se_exercise_id := exerciseId;
     se_weight_used := Some weight;
     se_sets_completed :=
       (match existing with Some e => se_sets_completed e | None => 0 end + 1)%Z;
     se_reps_completed :=
       match existing with Some e => se_reps_completed e | None => None end;
     se_notes := match existing with Some e => se_notes e | None => None end;
     se_created_at :=
       match existing with Some e => se_created_at e | None => None end |}.

(** [recordWeight(exerciseId, weight, setIndex)].  The value the insert
    resolves to is not looked at, so a refused insert ([Fails]) goes on as a
    successful one does; only a raised exception reaches [catch]. *)
Definition recordWeight (r : reply) (uuid : string) (now : Z)
    (exerciseId : string) (weight : Q) (setIndex : nat) (w : World) : World :=
  match currentSession (store w) with
  | None => w
  | Some currentSession =>
      let w := send (InsertProgressHistory exerciseId weight) w in
      match r with
      | Throws message => with_store (set_error (Some message)) w
      | Succeeds | Fails _ =>
          let w :=
            match r with
            | Succeeds =>
                let row := {| Stats.id := uuid; Stats.exercise_id := exerciseId;
                              Stats.weight := weight; Stats.notes := None;
                              Stats.created_at := now |} in
                with_remote
                  (fun t => with_progress_history (progress_history t ++ [row]) t)
                  w
            | _ => w
            end in
          let sessionExercises := sessionExercises (store w) in
          let key := key exerciseId setIndex in
          let existing := get sessionExercises key in
          let updatedExercise :=
            updatedExercise existing exerciseId (ws_id currentSession) weight in
          with_store (set_sessionExercises (set sessionExercises key updatedExercise)) w
      end
  end.

(** [completeSet(exerciseId, setIndex, reps)] *)
Definition completeSet (exerciseId : string) (setIndex : nat) (reps : string)
    (w : World) : World :=
  let sessionExercises := sessionExercises (store w) in
  let key := key exerciseId setIndex in
  match get sessionExercises key with
  | Some existing =>
      let existing :=
        {| se_id := se_id existing;
           se_session_id := se_session_id existing;
           se_exercise_id := se_exercise_id existing;
           se_weight_used := se_weight_used existing;
           se_sets_completed := se_sets_completed existing;
           se_reps_completed := Some reps;
           se_notes := se_notes existing;
           se_created_at := se_created_at existing |} in
      with_store (set_sessionExercises (set sessionExercises key existing)) w
  | None => w
  end.

(** [ex.weight_used && ex.weight_used > 0] *)
Definition has_weight (ex : SessionExercise) : bool :=
  match se_weight_used ex with
  | Some x => negb (Qle_bool x 0)
  | None => false
  end.

(** [UPDATE workout_sessions SET completed_at = ... WHERE id = ...] *)
Definition complete_session (sessionId : string) (now : Z)
    (t : list WorkoutSession) : list WorkoutSession :=
  map (fun s =>
         if String.eqb (ws_id s) sessionId then
           {| ws_id := ws_id s; ws_day_id := ws_day_id s;
              ws_started_at := ws_started_at s;
              ws_completed_at := Some now; ws_notes := ws_notes s;
              ws_created_at := ws_created_at s |}
         else s) t.

(** [completeWorkoutSession()].  [r1] answers the update of the session and
    [r2] the bulk insert; neither resolved value is looked at. *)
Definition completeWorkoutSession (r1 r2 : reply) (now : Z) (w : World) : World :=
  match currentSession (store w) with
  | None => w
  | Some currentSession =>
      let sessionExercises := sessionExercises (store w) in
      let w := send (UpdateCompletedAt (ws_id currentSession) now) w in
      match r1 with
      | Throws message => with_store (set_error (Some message)) w
      | Succeeds | Fails _ =>
          let w :=
            match r1 with
            | Succeeds =>
                with_remote
                  (fun t => with_workout_sessions
                              (complete_session (ws_id currentSession) now
                                                (workout_sessions t)) t) w
            | _ => w
            end in
          let exercisesToSave := filter has_weight (values sessionExercises) in
          let cleared s :=
            set_isLoading false
              (set_sessionExercises empty (set_currentSession None s)) in
          if (0 <? List.length exercisesToSave)%nat then
            let w := send (InsertSessionExercises exercisesToSave) w in
            match r2 with
            | Throws message => with_store (set_error (Some message)) w
            | Succeeds =>
                let w := with_remote
                           (fun t => with_session_exercises
                                       (session_exercises t ++ exercisesToSave) t)
                           w in
                with_store cleared w
            | Fails _ => with_store cleared w
            end
          else with_store cleared w
      end
  end.

(** [.eq('day_id', dayId).is('completed_at', null)] *)
Definition is_open_for (dayId : string) (s : WorkoutSession) : bool :=
  String.eqb (ws_day_id s) dayId
  && match ws_completed_at s with None => true | Some _ => false end.

(** [.order('started_at', { ascending: false }).limit(1)]: the row started
    last, the earliest in the table among equals. *)
Fixpoint latest_started (rows : list WorkoutSession) : option WorkoutSession :=
  match rows with
  | [] => None
  | s :: rest =>
      match latest_started rest with
      | Some s' => if (ws_started_at s <? ws_started_at s')%Z then Some s'
                   else Some s
      | None => Some s
      end
  end.

(** [loadCurrentSession(dayId)].  Without an open session [single()]
    resolves to [data: null], as a refused request does. *)
Definition loadCurrentSession (r : reply) (dayId : string) (w : World) : World :=
  let w := send (SelectOpenSession dayId) w in
  match r with
  | Succeeds =>
      match latest_started
              (filter (is_open_for dayId) (workout_sessions (remote w))) with
      | Some data => with_store (set_currentSession (Some data)) w
      | None => w
      end
  | Fails _ | Throws _ => w
  end.

(** [clearSession()] *)
Definition clearSession (w : World) : World :=
  with_store
    (fun s => set_error None
                (set_sessionExercises empty (set_currentSession None s))) w.

(** ** Runs of the store *)

(** A call of an action, with what the backend answers to it. *)
Inductive action : Type :=
| StartWorkoutSession (r : reply) (uuid : string) (now : Z) (dayId : string)
| RecordWeight (r : reply) (uuid : string) (now : Z)
    (exerciseId : string) (weight : Q) (setIndex : nat)
| CompleteSet (exerciseId : string) (setIndex : nat) (reps : string)
| CompleteWorkoutSession (r1 r2 : reply) (now : Z)
| LoadCurrentSession (r : reply) (dayId : string)
| ClearSession.

Definition step (a : action) (w : World) : World :=
  match a with
  | StartWorkoutSession r uuid now dayId => startWorkoutSession r uuid now dayId w
  | RecordWeight r uuid now exerciseId weight setIndex =>
      recordWeight r uuid now exerciseId weight setIndex w
  | CompleteSet exerciseId setIndex reps => completeSet exerciseId setIndex reps w
  | CompleteWorkoutSession r1 r2 now => completeWorkoutSession r1 r2 now w
  | LoadCurrentSession r dayId => loadCurrentSession r dayId w
  | ClearSession => clearSession w
  end.

Fixpoint run (actions : list action) (w : World) : World :=
  match actions with
  | [] => w
  | a :: rest => run rest (step a w)
  end.

(** The open sessions of a training day in the remote table. *)
Definition open_sessions (dayId : string) (t : Remote) : list WorkoutSession :=
  filter (is_open_for dayId) (workout_sessions t).

Definition at_most_one_open (t : Remote) : Prop :=
  forall dayId, (List.length (open_sessions dayId t) <= 1)%nat.

(** A run in which [startWorkoutSession] is only called for a day that has
    no open session in the remote table at that moment. *)
Fixpoint starts_guarded (actions : list action) (w : World) : bool :=
  match actions with
  | [] => true
  | a :: rest =>
      match a with
      | StartWorkoutSession _ _ _ dayId =>
          match open_sessions dayId (remote w) with
          | [] => true
          | _ :: _ => false
          end
      | _ => true
      end && starts_guarded rest (step a w)
  end.

(** ** Persistence (the options given to [persist]) *)

(** What [partialize] hands to the storage. *)
Record Persisted : Type := {
  p_currentSession : option WorkoutSession;
  p_sessionExercises : list (string * SessionExercise)
}.

Definition partialize (state : WorkoutStore) : Persisted :=
  {| p_currentSession := currentSession state;
     p_sessionExercises := entries (sessionExercises state) |}.

(** The store while it is rehydrated: [sessionExercises] holds the stored
    array until the callback of [onRehydrateStorage] has run. *)
Inductive MapOrArray : Type :=
| IsMap (m : Map SessionExercise)
| IsArray (a : list (string * SessionExercise)).

Record Rehydrating : Type := {
  h_currentSession : option WorkoutSession;
  h_sessionExercises : MapOrArray;
  h_isLoading : bool;
  h_error : option string
}.

(** The merge [persist] does before the callback: the stored fields over the
    current state.  What is stored is the value [partialize] gave; its
    passage through JSON text is not modelled. *)
Definition merge (persisted : Persisted) (current : WorkoutStore) : Rehydrating :=
  {| h_currentSession := p_currentSession persisted;
     h_sessionExercises := IsArray (p_sessionExercises persisted);
     h_isLoading := isLoading current;
     h_error := error current |}.

(** The callback returned by [onRehydrateStorage]; [state] is undefined
    when nothing could be read. *)
Definition onRehydrateStorage (state : option Rehydrating) : option Rehydrating :=
  match state with
  | Some state =>
      match h_sessionExercises state with
      | IsArray a =>
          Some {| h_currentSession := h_currentSession state;
                  h_sessionExercises := IsMap (new_Map a);
                  h_isLoading := h_isLoading state;
                  h_error := h_error state |}
      | IsMap _ => Some state
      end
  | None => None
  end.

(** Writing the store to the storage and reading it back on load. *)
Definition reload (state : WorkoutStore) : option Rehydrating :=
  onRehydrateStorage (Some (merge (partialize state) initial_store)).

(** ** Sample runs *)

(** A session with one recorded set, and the same after a second exercise
    and the repetitions of the first were entered. *)
Definition session_with_one_set : World :=
  run [ StartWorkoutSession Succeeds "s1" 100 "push";
        RecordWeight Succeeds "p1" 110 "bench" 60 0 ] initial_world.

Definition session_with_two_sets : World :=
  run [ RecordWeight Succeeds "p2" 120 "dips" 0 1;
        CompleteSet "bench" 0 "8" ] session_with_one_set.

End Store.

(* ================================================================== *)
(** * Weight input (components/WeightInput.tsx)                        *)
(* ================================================================== *)

Module WeightInput.
Import Store.

(** The state of one input: [useState(previousWeight)] and
    [useState(false)].  Weights are exact rationals, as in [Store]. *)
Record State : Type := {
  weight : Q;
  isRecording : bool
}.


(** [Math.max(0, Math.min(1000, newWeight))] *)
Definition validWeight (newWeight : Q) : Q := Qmax 0 (Qmin 1000 newWeight).

(** [handleWeightChange(newWeight)]: the new state of the input and what
    [onWeightChange?.(validWeight)] makes of the state [parent] of the
    component that passed the callback. *)
Definition handleWeightChange {P : Type} (onWeightChange : option (Q -> P -> P))
    (newWeight : Q) (s : State) (parent : P) : State * P :=
  let validWeight := validWeight newWeight in
  ({| weight := validWeight; isRecording := isRecording s |},
   match onWeightChange with
   | Some callback => callback validWeight parent
   | None => parent
   end).







End WeightInput.

(* ================================================================== *)
(** * Session view (components/WorkoutSession.tsx)                     *)
(* ================================================================== *)

Module SessionView.
Import Store.

(** [markSetCompleted(exerciseId, setIndex)]: the Map given to
    [setCompletedSets], a copy of [completedSets] with the key set. *)
Definition markSetCompleted (exerciseId : string) (setIndex : nat)
    (completedSets : Map bool) : Map bool :=
  let key := key exerciseId setIndex in
  let newCompletedSets := completedSets in
  set newCompletedSets key true.

(** [isSetCompleted(exerciseId, setIndex)]:
    [completedSets.get(key) || false] *)
Definition isSetCompleted (exerciseId : string) (setIndex : nat)
    (completedSets : Map bool) : bool :=
  let key := key exerciseId setIndex in
  match get completedSets key with
  | Some b => b
  | None => false
  end.

(** The callback the view gives to the input of a set:
    [onWeightChange={() => markSetCompleted(exercise.id, setIndex)}]. *)
Definition onWeightChange (exerciseId : string) (setIndex : nat)
  : Q -> Map bool -> Map bool :=
  fun _ completedSets => markSetCompleted exerciseId setIndex completedSets.

End SessionView.

(* ================================================================== *)
(** * Progress chart (components/ProgressChart.tsx)                    *)
(* ================================================================== *)

Module Chart.
Import Trend.

Section Entries.
Context {T : Type} `{Number T}.

(** A [WeightEntry]; [created_at] is the time [new Date(...).getTime()]
    reads from it. *)
Record WeightEntry : Type := {
  id : string;
  exercise_id : string;
  weight : T;
  notes : option string;
  created_at : Z
}.

(** [[...data].sort((a, b) => time(a) - time(b))]: the sort is stable, so
    entries of the same time keep their order. *)
Fixpoint insert_asc (e : WeightEntry) (sorted : list WeightEntry)
  : list WeightEntry :=
  match sorted with
  | [] => [e]
  | e' :: rest =>
      if (created_at e <=? created_at e')%Z then e :: sorted
      else e' :: insert_asc e rest
  end.

Definition sort_by_created_at (data : list WeightEntry) : list WeightEntry :=
  fold_right insert_asc [] data.

(** The two datasets of [chartData], with the times the labels are
    formatted from. *)
Record ChartData : Type := {
  labels : list Z;
  weights : list T;
  trendLine : list T
}.

Definition chartData (data : list WeightEntry) : ChartData :=
  let sortedData := sort_by_created_at data in
  let labels := map created_at sortedData in
  let weights := map weight sortedData in
  let trendLine := calculateTrendLine weights in
  {| labels := labels; weights := weights; trendLine := trendLine |}.

End Entries.

Arguments WeightEntry T : clear implicits.
Arguments ChartData T : clear implicits.


End Chart.

(* ================================================================== *)
(** * PDF report (lib/pdfGenerator.ts)                                 *)
(* ================================================================== *)

Module Report.

Local Open Scope Q_scope.

(** The fields of a statistics object the generator reads, each holding a
    number. *)
Record ProgressStats : Type := {
  exercise_name : string;
  total_sessions : Z;
  max_weight : Q;
  min_weight : Q;
  average_weight : Q;
  latest_weight : Q;
  weight_progression : Q;
  consistency_score : Q
}.

(** ** The document

    What the generator uses of jsPDF: the pages, the current page and what
    was drawn where.  A text is kept as what it says, not as its
    characters; fonts, sizes and colours are left out. *)
Inductive content : Type :=
| ReportTitle
| Period
| Generated
| SummaryTitle
| SummaryLine (n : nat)
| BestExercise (best : ProgressStats)
| ExerciseName (stat : ProgressStats)
| StatLabel (n : nat)
| StatValue (n : nat) (stat : ProgressStats)
| ChartsTitle
| PageNumber (i pageCount : nat)
| Credit.

Inductive item : Type :=
| Text (page : nat) (c : content) (x y : Q)
| Line (page : nat) (x1 y1 x2 y2 : Q)
| Image (page : nat) (x y width height : Q).

Record jsPDF : Type := {
  numberOfPages : nat;
  currentPage : nat;
  items : list item
}.

(** [new jsPDF('p', 'mm', 'a4')] *)
Definition new_jsPDF : jsPDF :=
  {| numberOfPages := 1; currentPage := 1; items := [] |}.







(** ** The generator *)

Record PDFReportGenerator : Type := {
  pdf : jsPDF;
  pageHeight : Q;
  pageWidth : Q;
  currentY : Q;
  margin : Q
}.

(** [constructor()]; [height] and [width] are the page size jsPDF reports
    for the format. *)
Definition constructor (height width : Q) : PDFReportGenerator :=
  {| pdf := new_jsPDF;
     pageHeight := height;
     pageWidth := width;
     currentY := 20;
     margin := 20 |}.







(** The [reduce] of [getBestExercise(stats)]: the callback keeps [prev]
    when its progression is greater and takes [current] otherwise. *)
Definition better (prev current : ProgressStats) : ProgressStats :=
  if Qle_bool (weight_progression prev) (weight_progression current)
  then current else prev.

(** [getBestExercise(stats)]: the exercise its text names.  Without an
    initial value, [reduce] raises a TypeError over an empty array. *)
Definition getBestExercise (stats : list ProgressStats) : option ProgressStats :=
  match stats with
  | [] => None
  | first :: rest => Some (fold_left better rest first)
  end.












Definition item_page (i : item) : nat :=
  match i with
  | Text page _ _ _ => page
  | Line page _ _ _ _ => page
  | Image page _ _ _ _ => page
  end.




End Report.

(* ================================================================== *)
(** * Facts about the trend line                                       *)
(* ================================================================== *)

Unset Implicit Arguments.

Module TrendFacts.
Import Trend.
Local Open Scope Q_scope.



















Lemma map_from_length {T : Type} (f : T -> nat -> T) (data : list T) :
  forall i, List.length (map_from f i data) = List.length data.
Proof.
  induction data as [|y ys IH]; intros i; simpl; [reflexivity|].
  now rewrite IH.
Qed.





(** C8: on fewer than two values, whatever the arithmetic,
    [calculateTrendLine] returns its input unchanged. *)
Theorem calculateTrendLine_short {T : Type} `{Number T} (data : list T) :
  (List.length data < 2)%nat -> calculateTrendLine data = data.
Proof.
  intros Hlen. unfold calculateTrendLine.
  destruct (Nat.ltb_spec (List.length data) 2) as [_|Hge]; [reflexivity|lia].
Qed.

Lemma calculateTrendLine_short_witness :
  calculateTrendLine ([] : list float) = []
  /\ calculateTrendLine [62.5%float] = [62.5%float]
  /\ calculateTrendLine [125 # 2] = [125 # 2].
Proof.
  split; [|split]; apply calculateTrendLine_short; simpl; lia.
Defined.

End TrendFacts.

(* ================================================================== *)
(** * Facts about the progress statistics                              *)
(* ================================================================== *)

Module StatsFacts.
Import Stats.
Local Open Scope Q_scope.

(** ** The rows of [progress_data] *)

Lemma selected_spec (pid : string) (sd ed : option Z) (ph : progress_history) :
  selected pid sd ed ph = true <->
  exercise_id ph = pid
  /\ (forall d, sd = Some d -> (d <= created_at ph)%Z)
  /\ (forall d, ed = Some d -> (created_at ph <= d)%Z).
Proof.
  unfold selected, from_start, until_end.
  rewrite !andb_true_iff, String.eqb_eq.
  destruct sd as [s|], ed as [e|]; rewrite ?Z.leb_le;
    (split; [intros [[H1 H2] H3]; repeat split; try assumption;
             intros d [= <-]; assumption
            |intros [H1 [H2 H3]]; repeat split; auto]).
Qed.

(** The observations are the rows of the exercise inside the inclusive
    date range. *)
Lemma observations_spec (table : list progress_history) (pid : string)
    (sd ed : option Z) (ph : progress_history) :
  In ph (observations table pid sd ed) <->
  In ph table
  /\ exercise_id ph = pid
  /\ (forall d, sd = Some d -> (d <= created_at ph)%Z)
  /\ (forall d, ed = Some d -> (created_at ph <= d)%Z).
Proof.
  unfold observations. rewrite filter_In, selected_spec. reflexivity.
Qed.

Lemma insert_desc_perm (ph : progress_history) (l : list progress_history) :
  Permutation (ph :: l) (insert_desc ph l).
Proof.
  induction l as [|ph' rest IH]; simpl; [reflexivity|].
  destruct (created_at ph' <=? created_at ph)%Z; [reflexivity|].
  rewrite perm_swap. now constructor.
Qed.

Lemma order_by_perm (l : list progress_history) :
  Permutation l (order_by_created_at_desc l).
Proof.
  induction l as [|ph rest IH]; simpl; [reflexivity|].
  rewrite <- insert_desc_perm. now constructor.
Qed.

Lemma insert_desc_sorted (ph : progress_history) (l : list progress_history) :
  StronglySorted not_earlier l -> StronglySorted not_earlier (insert_desc ph l).
Proof.
  induction 1 as [|ph' rest Hsorted IH Hall]; simpl.
  - repeat constructor.
  - destruct (Z.leb_spec (created_at ph') (created_at ph)) as [Hle|Hlt].
    + constructor; [now constructor|]. constructor; [exact Hle|].
      eapply Forall_impl; [|exact Hall]. unfold not_earlier. intros; lia.
    + constructor; [exact IH|].
      rewrite <- insert_desc_perm. constructor; [|exact Hall].
      unfold not_earlier. lia.
Qed.

Lemma order_by_sorted (l : list progress_history) :
  StronglySorted not_earlier (order_by_created_at_desc l).
Proof.
  induction l as [|ph rest IH]; simpl; [constructor|].
  now apply insert_desc_sorted.
Qed.

(** Whatever order rows of equal [created_at] are put in, the first row of
    a descending order is not earlier than any row. *)
Lemma first_is_latest (l sorted : list progress_history) (ph : progress_history)
    (rest : list progress_history) :
  Permutation l sorted -> StronglySorted not_earlier sorted ->
  sorted = ph :: rest ->
  In ph l /\ forall ph', In ph' l -> (created_at ph' <= created_at ph)%Z.
Proof.
  intros Hperm Hsorted ->. split.
  - eapply Permutation_in; [symmetry; exact Hperm|now left].
  - intros ph' Hin. apply (Permutation_in _ Hperm) in Hin.
    apply StronglySorted_inv in Hsorted as [_ Hall].
    destruct Hin as [<-|Hin]; [lia|].
    rewrite Forall_forall in Hall. now apply Hall.
Qed.

Lemma row_number_from_length (l : list progress_history) :
  forall k, List.length (row_number_from k l) = List.length l.
Proof. induction l as [|ph rest IH]; intros k; simpl; [|rewrite IH]; reflexivity. Qed.

Lemma row_number_from_weights (l : list progress_history) :
  forall k, map pd_weight (row_number_from k l) = map weight l.
Proof. induction l as [|ph rest IH]; intros k; simpl; [|rewrite IH]; reflexivity. Qed.

Lemma progress_data_length (table : list progress_history) (pid : string)
    (sd ed : option Z) :
  List.length (progress_data table pid sd ed) =
  List.length (observations table pid sd ed).
Proof.
  unfold progress_data, observations.
  rewrite row_number_from_length.
  symmetry. apply Permutation_length, order_by_perm.
Qed.

Lemma progress_data_weights (table : list progress_history) (pid : string)
    (sd ed : option Z) :
  Permutation (map weight (observations table pid sd ed))
              (map pd_weight (progress_data table pid sd ed)).
Proof.
  unfold progress_data, observations.
  rewrite row_number_from_weights. apply Permutation_map, order_by_perm.
Qed.

(** The row numbered 1 is the first of the descending order. *)
Lemma weight_where_rn_1_first (l : list progress_history) :
  weight_where_rn_1 (row_number_from 1 l) = option_map weight (hd_error l).
Proof. destruct l as [|ph rest]; reflexivity. Qed.

Lemma latest_weight_spec (table : list progress_history) (pid : string)
    (sd ed : option Z) :
  (0 < List.length (observations table pid sd ed))%nat ->
  exists ph,
    weight_where_rn_1 (progress_data table pid sd ed) = Some (weight ph)
    /\ In ph (observations table pid sd ed)
    /\ forall ph', In ph' (observations table pid sd ed) ->
                   (created_at ph' <= created_at ph)%Z.
Proof.
  intros Hlen. unfold progress_data. fold (observations table pid sd ed).
  set (obs := observations table pid sd ed) in *.
  rewrite weight_where_rn_1_first.
  destruct (order_by_created_at_desc obs) as [|ph rest] eqn:Hsorted.
  - pose proof (Permutation_length (order_by_perm obs)) as Hl.
    rewrite Hsorted in Hl. simpl in Hl. lia.
  - exists ph. split; [reflexivity|].
    eapply first_is_latest; [apply order_by_perm|apply order_by_sorted|exact Hsorted].
Qed.

(** ** The aggregates *)


Lemma fold_min_bounds (l : list progress_data_row) :
  forall m,
    fold_left (fun m r' => Qmin m (pd_weight r')) l m <= m
    /\ Forall (fun r => fold_left (fun m r' => Qmin m (pd_weight r')) l m
                        <= pd_weight r) l.
Proof.
  induction l as [|r rest IH]; intros m; simpl.
  - split; [apply Qle_refl|constructor].
  - destruct (IH (Qmin m (pd_weight r))) as [Hm Hall].
    split; [|constructor; [|exact Hall]].
    + eapply Qle_trans; [exact Hm|apply Q.le_min_l].
    + eapply Qle_trans; [exact Hm|apply Q.le_min_r].
Qed.


Lemma MIN_lower (pd : list progress_data_row) (mn : Q) :
  MIN pd = Some mn -> Forall (fun r => mn <= pd_weight r) pd.
Proof.
  destruct pd as [|r rest]; simpl; [discriminate|]. intros [= <-].
  destruct (fold_min_bounds rest (pd_weight r)) as [Hm Hall].
  now constructor.
Qed.

(** Both are the weight of a row. *)
Lemma fold_max_attained (l : list progress_data_row) :
  forall m,
    let F := fold_left (fun m r' => Qmax m (pd_weight r')) l m in
    F = m \/ exists r, In r l /\ F = pd_weight r.
Proof.
  induction l as [|r rest IH]; intros m; simpl; [now left|].
  destruct (IH (Qmax m (pd_weight r))) as [Heq|[r' [Hin Heq]]].
  - rewrite Heq. unfold Qmax, GenericMinMax.gmax.
    destruct (m ?= pd_weight r); [now left| |now left].
    right. exists r. split; [now left|reflexivity].
  - right. exists r'. split; [now right|exact Heq].
Qed.

Lemma fold_min_attained (l : list progress_data_row) :
  forall m,
    let F := fold_left (fun m r' => Qmin m (pd_weight r')) l m in
    F = m \/ exists r, In r l /\ F = pd_weight r.
Proof.
  induction l as [|r rest IH]; intros m; simpl; [now left|].
  destruct (IH (Qmin m (pd_weight r))) as [Heq|[r' [Hin Heq]]].
  - rewrite Heq. unfold Qmin, GenericMinMax.gmin.
    destruct (m ?= pd_weight r); [now left|now left|].
    right. exists r. split; [now left|reflexivity].
  - right. exists r'. split; [now right|exact Heq].
Qed.

Lemma MAX_attained (pd : list progress_data_row) (mx : Q) :
  MAX pd = Some mx -> exists r, In r pd /\ mx = pd_weight r.
Proof.
  destruct pd as [|r rest]; simpl; [discriminate|]. intros [= <-].
  destruct (fold_max_attained rest (pd_weight r)) as [Heq|[r' [Hin Heq]]].
  - exists r. split; [now left|exact Heq].
  - exists r'. split; [now right|exact Heq].
Qed.

Lemma MIN_attained (pd : list progress_data_row) (mn : Q) :
  MIN pd = Some mn -> exists r, In r pd /\ mn = pd_weight r.
Proof.
  destruct pd as [|r rest]; simpl; [discriminate|]. intros [= <-].
  destruct (fold_min_attained rest (pd_weight r)) as [Heq|[r' [Hin Heq]]].
  - exists r. split; [now left|exact Heq].
  - exists r'. split; [now right|exact Heq].
Qed.





Lemma COUNT_pos (r : progress_data_row) (rest : list progress_data_row) :
  0 < inject_Z (COUNT (r :: rest)).
Proof.
  change 0 with (inject_Z 0). rewrite <- Zlt_Qlt. unfold COUNT. simpl List.length. lia.
Qed.

(** ** The division *)

Lemma numeric_div_nonzero (a b : Q) :
  ~ b == 0 -> numeric_div a b = Returns (a / b).
Proof.
  intros Hb. unfold numeric_div.
  destruct (Qeq_bool b 0) eqn:E; [|reflexivity].
  apply Qeq_bool_iff in E. contradiction.
Qed.

Lemma numeric_div_zero (a b : Q) : b == 0 -> numeric_div a b = DivisionByZero.
Proof.
  intros Hb. unfold numeric_div.
  apply Qeq_bool_iff in Hb. now rewrite Hb.
Qed.

(** [AVG] over at least one row never divides by zero, and lies between
    the bounds of the weights. *)
Lemma AVG_nonempty (pd : list progress_data_row) :
  (0 < List.length pd)%nat ->
  AVG numeric_div pd = Returns (Some (SUM pd / inject_Z (COUNT pd))).
Proof.
  destruct pd as [|r rest]; simpl List.length; [lia|]. intros _.
  unfold AVG. rewrite numeric_div_nonzero; [reflexivity|].
  pose proof (COUNT_pos r rest). lra.
Qed.


(** ** The function *)

Lemma stats_nonempty (pd : list progress_data_row) :
  (0 < List.length pd)%nat ->
  stats pd =
  Returns {| s_total_sessions := COUNT pd;
             s_max_weight := MAX pd;
             s_min_weight := MIN pd;
             s_avg_weight := Some (SUM pd / inject_Z (COUNT pd));
             s_latest_weight := weight_where_rn_1 pd |}.
Proof.
  intros Hlen. unfold stats, stats_with. now rewrite AVG_nonempty.
Qed.


Lemma MIN_nonempty (pd : list progress_data_row) :
  (0 < List.length pd)%nat -> exists mn, MIN pd = Some mn.
Proof. destruct pd; simpl; [lia|eauto]. Qed.

(** Over no observation the function returns the row of NULLs. *)
Lemma empty_stats_total (table : list progress_history) (pid : string)
    (sd ed : option Z) :
  observations table pid sd ed = [] ->
  get_exercise_progress_stats table pid sd ed =
  Returns {| total_sessions := 0;
             max_weight := None;
             min_weight := None;
             avg_weight := None;
             latest_weight := None;
             weight_progression := Some 0 |}.
Proof.
  intros Hobs.
  unfold get_exercise_progress_stats, get_exercise_progress_stats_with, progress_data.
  fold (observations table pid sd ed). rewrite Hobs. reflexivity.
Qed.

(** The function over at least one observation, case by case: a row
    with progression 0 for a single observation; for more, the division by
    zero when the minimum is zero and a row with the progression formula
    otherwise. *)
Lemma get_exercise_progress_stats_cases (table : list progress_history)
    (pid : string) (sd ed : option Z) (mn lt : Q) :
  let n := List.length (observations table pid sd ed) in
  let pd := progress_data table pid sd ed in
  (0 < n)%nat ->
  MIN pd = Some mn ->
  weight_where_rn_1 pd = Some lt ->
  get_exercise_progress_stats table pid sd ed =
  if (1 <? Z.of_nat n)%Z then
    if Qeq_bool mn 0 then DivisionByZero
    else Returns {| total_sessions := Z.of_nat n;
                    max_weight := MAX pd;
                    min_weight := Some mn;
                    avg_weight := Some (SUM pd / inject_Z (Z.of_nat n));
                    latest_weight := Some lt;
                    weight_progression := Some ((lt - mn) / mn * 100) |}
  else Returns {| total_sessions := Z.of_nat n;
                  max_weight := MAX pd;
                  min_weight := Some mn;
                  avg_weight := Some (SUM pd / inject_Z (Z.of_nat n));
                  latest_weight := Some lt;
                  weight_progression := Some 0 |}.
Proof.
  intros n pd Hpos Hmn Hlt.
  assert (Hn : List.length pd = n) by apply progress_data_length.
  assert (Hc : COUNT pd = Z.of_nat n) by (unfold COUNT; now rewrite Hn).
  unfold get_exercise_progress_stats, get_exercise_progress_stats_with.
  fold pd. fold stats. rewrite stats_nonempty by lia. simpl.
  unfold progression_with. simpl. rewrite !Hc, Hmn, Hlt.
  destruct (1 <? Z.of_nat n)%Z; [|reflexivity].
  simpl. unfold numeric_div. destruct (Qeq_bool mn 0); reflexivity.
Qed.



(** C5: when there is no observation, the function returns the row with
    count 0, progression 0 and NULL for the maximum, the minimum, the mean
    and the latest weight, and it does so with any division whatsoever,
    also with one that always fails: no division is performed. *)
Theorem empty_stats_without_division (div : Q -> Q -> sql_result Q)
    (table : list progress_history) (pid : string) (sd ed : option Z) :
  observations table pid sd ed = [] ->
  get_exercise_progress_stats_with div table pid sd ed =
  Returns {| total_sessions := 0;
             max_weight := None;
             min_weight := None;
             avg_weight := None;
             latest_weight := None;
             weight_progression := Some 0 |}.
Proof.
  intros Hobs. unfold get_exercise_progress_stats_with, progress_data.
  fold (observations table pid sd ed). rewrite Hobs. reflexivity.
Qed.

Lemma empty_stats_without_division_witness :
  get_exercise_progress_stats_with no_division bench_history "bench"
    (Some 10%Z) (Some 20%Z) =
  Returns {| total_sessions := 0;
             max_weight := None;
             min_weight := None;
             avg_weight := None;
             latest_weight := None;
             weight_progression := Some 0 |}.
Proof.
  apply (empty_stats_without_division no_division bench_history "bench"
           (Some 10%Z) (Some 20%Z)).
  reflexivity.
Defined.



End StatsFacts.

(* ================================================================== *)
(** * Facts about the workout-session store                            *)
(* ================================================================== *)

Module StoreFacts.
Import Store.
Local Open Scope string_scope.

(** ** The Map *)

Section MapFacts.
Context {V : Type}.
Implicit Types (m : Map V) (k : string) (v : V).

Lemma get_set_same m k v : get (set m k v) k = Some v.
Proof.
  induction m as [|[k' v'] rest IH]; simpl.
  - now rewrite String.eqb_refl.
  - destruct (String.eqb_spec k' k) as [->|Hne]; simpl.
    + now rewrite String.eqb_refl.
    + destruct (String.eqb_spec k' k); [contradiction|exact IH].
Qed.

Lemma get_set_other m k k' v : k <> k' -> get (set m k v) k' = get m k'.
Proof.
  intros Hne. induction m as [|[k0 v0] rest IH]; simpl.
  - destruct (String.eqb_spec k k'); [contradiction|reflexivity].
  - destruct (String.eqb_spec k0 k) as [->|Hk0]; simpl.
    + destruct (String.eqb_spec k k'); [contradiction|reflexivity].
    + now rewrite IH.
Qed.

Lemma set_fresh m k v : ~ In k (map fst m) -> set m k v = (m ++ [(k, v)])%list.
Proof.
  induction m as [|[k' v'] rest IH]; simpl; intros Hnot; [reflexivity|].
  destruct (String.eqb_spec k' k) as [->|Hne]; [tauto|].
  rewrite IH; [reflexivity|tauto].
Qed.

Lemma set_keys_known m k v :
  In k (map fst m) -> map fst (set m k v) = map fst m.
Proof.
  induction m as [|[k' v'] rest IH]; simpl; intros Hin; [contradiction|].
  destruct (String.eqb_spec k' k) as [->|Hne]; simpl; [reflexivity|].
  rewrite IH; [reflexivity|]. destruct Hin; [contradiction|assumption].
Qed.

(** [set] keeps the keys distinct. *)
Lemma set_well_formed m k v : well_formed m -> well_formed (set m k v).
Proof.
  unfold well_formed. intros Hwf.
  destruct (in_dec string_dec k (map fst m)) as [Hin|Hnot].
  - now rewrite set_keys_known.
  - rewrite set_fresh by assumption. rewrite map_app. simpl.
    apply NoDup_app; [assumption|repeat constructor; intros []|].
    intros k' Hk' [<-|[]]. contradiction.
Qed.

Lemma fold_set_distinct (l : list (string * V)) :
  forall acc : Map V,
    NoDup (map fst (acc ++ l)%list) ->
    fold_left (fun m kv => set m (fst kv) (snd kv)) l acc = (acc ++ l)%list.
Proof.
  induction l as [|[k v] rest IH]; intros acc Hnd; simpl.
  - now rewrite app_nil_r.
  - assert (Hnot : ~ In k (map fst acc)).
    { rewrite map_app in Hnd. simpl in Hnd.
      apply NoDup_remove_2 in Hnd. intros Hin. apply Hnd.
      apply in_or_app. now left. }
    rewrite set_fresh by assumption.
    rewrite IH; rewrite <- app_assoc; simpl; [reflexivity|assumption].
Qed.

(** Rebuilding a Map from its entries gives the Map back, entry for entry
    and in the same order. *)
Lemma new_Map_entries m : well_formed m -> new_Map (entries m) = m.
Proof.
  intros Hwf. unfold new_Map, entries, empty.
  now rewrite fold_set_distinct.
Qed.

End MapFacts.

(** ** The cache keeps its keys distinct *)

Lemma step_well_formed (a : action) (w : World) :
  well_formed (sessionExercises (store w)) ->
  well_formed (sessionExercises (store (step a w))).
Proof.
  intros Hwf. destruct a as [r uuid now d|r uuid now e wt i|e i reps|r1 r2 now|r d|];
    simpl.
  - destruct r; exact Hwf.
  - unfold recordWeight. destruct (currentSession (store w)); [|exact Hwf].
    destruct r; simpl; try exact Hwf; now apply set_well_formed.
  - unfold completeSet. destruct (get _ _); [|exact Hwf].
    simpl. now apply set_well_formed.
  - unfold completeWorkoutSession. destruct (currentSession (store w)); [|exact Hwf].
    destruct r1; simpl; try exact Hwf;
      (destruct (0 <? _)%nat; [destruct r2|]; simpl; try exact Hwf; constructor).
  - unfold loadCurrentSession. destruct r; simpl; try exact Hwf.
    destruct (latest_started _); exact Hwf.
  - constructor.
Qed.

Lemma run_well_formed (actions : list action) :
  forall w, well_formed (sessionExercises (store w)) ->
            well_formed (sessionExercises (store (run actions w))).
Proof.
  induction actions as [|a rest IH]; intros w Hwf; simpl; [exact Hwf|].
  apply IH. now apply step_well_formed.
Qed.

Lemma reachable_well_formed (actions : list action) :
  well_formed (sessionExercises (store (run actions initial_world))).
Proof. apply run_well_formed. constructor. Qed.

(** ** Persistence *)

(** C9: writing the store to the storage with [partialize] and rebuilding
    it on load with the callback of [onRehydrateStorage] gives back a Map
    that is the cached one: the same keys, in the same order, with the same
    entries, so that every key is looked up to the same entry; the current
    session comes back as well. *)
Theorem persist_round_trip (state : WorkoutStore) :
  well_formed (sessionExercises state) ->
  exists m : Map SessionExercise,
    option_map h_sessionExercises (reload state) = Some (IsMap m)
    /\ m = sessionExercises state
    /\ (forall k, get m k = get (sessionExercises state) k)
    /\ option_map h_currentSession (reload state) = Some (currentSession state).
Proof.
  intros Hwf. exists (sessionExercises state).
  unfold reload, partialize, merge, onRehydrateStorage. simpl.
  rewrite new_Map_entries by exact Hwf. repeat split.
Qed.

Lemma persist_round_trip_witness :
  exists m : Map SessionExercise,
    option_map h_sessionExercises (reload (store session_with_two_sets))
    = Some (IsMap m)
    /\ m = sessionExercises (store session_with_two_sets)
    /\ (forall k, get m k = get (sessionExercises (store session_with_two_sets)) k)
    /\ option_map h_currentSession (reload (store session_with_two_sets))
       = Some (currentSession (store session_with_two_sets)).
Proof.
  apply (persist_round_trip (store session_with_two_sets)).
  vm_compute. repeat constructor; simpl; intuition discriminate.
Defined.

(** ** recordWeight *)

(** C10: without a current session [recordWeight] changes nothing: the
    store, its error field included, the remote tables and the list of the
    requests issued are what they were. *)
Theorem recordWeight_without_session (r : reply) (uuid : string) (now : Z)
    (exerciseId : string) (weight : Q) (setIndex : nat) (w : World) :
  currentSession (store w) = None ->
  recordWeight r uuid now exerciseId weight setIndex w = w.
Proof.
  intros Hnone. unfold recordWeight. now rewrite Hnone.
Qed.

Lemma recordWeight_without_session_witness :
  recordWeight Succeeds "p1" 110 "bench" 60 0 initial_world = initial_world.
Proof.
  apply (recordWeight_without_session Succeeds "p1" 110 "bench" 60 0 initial_world).
  reflexivity.
Defined.

(** When the awaited insert raises, the cache is left as it was and the
    message is stored. *)
Lemma recordWeight_raised (message uuid : string) (now : Z)
    (exerciseId : string) (weight : Q) (setIndex : nat) (w : World)
    (cs : WorkoutSession) :
  currentSession (store w) = Some cs ->
  let w' := recordWeight (Throws message) uuid now exerciseId weight setIndex w in
  sessionExercises (store w') = sessionExercises (store w)
  /\ error (store w') = Some message
  /\ remote w' = remote w
  /\ requests w' = InsertProgressHistory exerciseId weight :: requests w.
Proof.
  intros Hcs. unfold recordWeight. rewrite Hcs. simpl. repeat split.
Qed.

(** When the insert is refused, the cache entry is written as after a
    successful insert and the error field keeps its value. *)
Lemma recordWeight_refused (message uuid : string) (now : Z)
    (exerciseId : string) (weight : Q) (setIndex : nat) (w : World)
    (cs : WorkoutSession) :
  currentSession (store w) = Some cs ->
  let w' := recordWeight (Fails message) uuid now exerciseId weight setIndex w in
  get (sessionExercises (store w')) (key exerciseId setIndex) =
    Some (updatedExercise
            (get (sessionExercises (store w)) (key exerciseId setIndex))
            exerciseId (ws_id cs) weight)
  /\ error (store w') = error (store w)
  /\ remote w' = remote w
  /\ requests w' = InsertProgressHistory exerciseId weight :: requests w.
Proof.
  intros Hcs. unfold recordWeight. rewrite Hcs. simpl.
  rewrite get_set_same. repeat split.
Qed.

(** C1 at a refused insert: in a session whose entry for the first set of
    "bench" counts one completed set, a [recordWeight] whose insert is
    refused writes nothing to [progress_history], yet the entry then holds
    the new weight and counts two sets, and the error field is still
    empty. *)
Theorem recordWeight_refused_insert :
  let w := session_with_one_set in
  let w' := recordWeight (Fails "new row violates row-level security policy")
                         "p2" 120 "bench" (125 # 2) 0 w in
  option_map ws_id (currentSession (store w)) = Some "s1"
  /\ option_map se_sets_completed
       (get (sessionExercises (store w)) (key "bench" 0)) = Some 1%Z
  /\ progress_history (remote w') = progress_history (remote w)
  /\ option_map se_sets_completed
       (get (sessionExercises (store w')) (key "bench" 0)) = Some 2%Z
  /\ option_map se_weight_used
       (get (sessionExercises (store w')) (key "bench" 0)) = Some (Some (125 # 2))
  /\ error (store w') = None.
Proof. vm_compute. repeat split. Qed.

(** ** completeWorkoutSession *)

(** When the awaited bulk insert raises, the cache is left as it was and
    the message is stored. *)
Lemma completeWorkoutSession_raised (r1 : reply) (message : string) (now : Z)
    (w : World) (cs : WorkoutSession) :
  currentSession (store w) = Some cs ->
  (forall m, r1 <> Throws m) ->
  filter has_weight (values (sessionExercises (store w))) <> [] ->
  let w' := completeWorkoutSession r1 (Throws message) now w in
  currentSession (store w') = Some cs
  /\ sessionExercises (store w') = sessionExercises (store w)
  /\ error (store w') = Some message.
Proof.
  intros Hcs Hr1 Hrows. unfold completeWorkoutSession. rewrite Hcs. cbv zeta.
  destruct (filter has_weight (values (sessionExercises (store w))))
    as [|ex rest]; [contradiction|].
  destruct r1 as [|m|m]; [| |now destruct (Hr1 m)]; simpl;
    repeat split; assumption.
Qed.

(** When the bulk insert is refused, the cache is cleared all the same and
    the error field keeps its value. *)
Lemma completeWorkoutSession_refused (r1 : reply) (message : string) (now : Z)
    (w : World) (cs : WorkoutSession) :
  currentSession (store w) = Some cs ->
  (forall m, r1 <> Throws m) ->
  let w' := completeWorkoutSession r1 (Fails message) now w in
  currentSession (store w') = None
  /\ sessionExercises (store w') = empty
  /\ error (store w') = error (store w)
  /\ session_exercises (remote w') = session_exercises (remote w).
Proof.
  intros Hcs Hr1. unfold completeWorkoutSession. rewrite Hcs.
  destruct r1 as [|m|m]; [| |now destruct (Hr1 m)]; simpl;
    destruct (0 <? _)%nat; simpl; repeat split.
Qed.

(** C2 at a refused bulk insert: with a current session and one cached
    entry of positive weight, a [completeWorkoutSession] whose bulk insert
    is refused stores no row in [session_exercises], empties the cache and
    leaves the error field empty. *)
Theorem completeWorkoutSession_refused_insert :
  let w := session_with_one_set in
  let w' := completeWorkoutSession
              Succeeds (Fails "new row violates row-level security policy")
              200 w in
  option_map ws_id (currentSession (store w)) = Some "s1"
  /\ List.length (filter has_weight (values (sessionExercises (store w)))) = 1%nat
  /\ List.length (sessionExercises (store w)) = 1%nat
  /\ session_exercises (remote w') = []
  /\ currentSession (store w') = None
  /\ sessionExercises (store w') = empty
  /\ error (store w') = None.
Proof. vm_compute. repeat split. Qed.

(** ** Open sessions in the remote table *)

Lemma filter_app_one {A : Type} (f : A -> bool) (l : list A) (x : A) :
  List.length (filter f (l ++ [x])) =
  (List.length (filter f l) + (if f x then 1 else 0))%nat.
Proof.
  rewrite filter_app, length_app. simpl. now destruct (f x).
Qed.

Lemma complete_session_open (dayId sessionId : string) (now : Z)
    (t : list WorkoutSession) :
  (List.length (filter (is_open_for dayId) (complete_session sessionId now t))
   <= List.length (filter (is_open_for dayId) t))%nat.
Proof.
  induction t as [|s rest IH]; simpl; [lia|].
  destruct (String.eqb (ws_id s) sessionId).
  - unfold is_open_for at 1. simpl. rewrite andb_false_r.
    destruct (is_open_for dayId s); simpl; lia.
  - destruct (is_open_for dayId s); simpl; lia.
Qed.

(** What an action does to the table [workout_sessions]: nothing, or the
    insert of an open session by a successful [startWorkoutSession], or the
    completion of a session. *)
Lemma step_workout_sessions (a : action) (w : World) :
  workout_sessions (remote (step a w)) = workout_sessions (remote w)
  \/ (exists uuid now dayId,
         a = StartWorkoutSession Succeeds uuid now dayId
         /\ workout_sessions (remote (step a w)) =
            (workout_sessions (remote w)
             ++ [ {| ws_id := uuid; ws_day_id := dayId; ws_started_at := now;
                     ws_completed_at := None; ws_notes := None;
                     ws_created_at := now |} ])%list)
  \/ (exists sessionId now,
         workout_sessions (remote (step a w)) =
         complete_session sessionId now (workout_sessions (remote w))).
Proof.
  destruct a as [r uuid now d|r uuid now e wt i|e i reps|r1 r2 now|r d|]; simpl.
  - destruct r; simpl; [|now left|now left].
    right. left. exists uuid, now, d. split; reflexivity.
  - left. unfold recordWeight. destruct (currentSession (store w)); [|reflexivity].
    destruct r; reflexivity.
  - left. unfold completeSet. destruct (get _ _); reflexivity.
  - unfold completeWorkoutSession.
    destruct (currentSession (store w)) as [cs|]; [|now left]. cbv zeta.
    destruct r1; simpl; [right; right; exists (ws_id cs), now|left|now left];
      (destruct (0 <? _)%nat; [destruct r2|]; reflexivity).
  - left. unfold loadCurrentSession. destruct r; simpl; try reflexivity.
    destruct (latest_started _); reflexivity.
  - now left.
Qed.

Lemma step_keeps_one_open (a : action) (w : World) :
  at_most_one_open (remote w) ->
  starts_guarded [a] w = true ->
  at_most_one_open (remote (step a w)).
Proof.
  intros Hone Hguard dayId. specialize (Hone dayId). unfold open_sessions in *.
  destruct (step_workout_sessions a w)
    as [Hsame|[[uuid [now [d [-> Hins]]]]|[sessionId [now Hupd]]]].
  - now rewrite Hsame.
  - rewrite Hins, filter_app_one. unfold is_open_for at 2. simpl.
    simpl in Hguard. unfold open_sessions in Hguard.
    destruct (String.eqb_spec d dayId) as [->|Hne]; simpl; [|lia].
    destruct (filter (is_open_for dayId) (workout_sessions (remote w)));
      [simpl; lia|discriminate].
  - rewrite Hupd.
    eapply Nat.le_trans; [apply complete_session_open|exact Hone].
Qed.

Lemma starts_guarded_cons (a : action) (rest : list action) (w : World) :
  starts_guarded (a :: rest) w = true ->
  starts_guarded [a] w = true /\ starts_guarded rest (step a w) = true.
Proof.
  simpl. rewrite !andb_true_iff. intros [Ha Hrest]. repeat split; assumption.
Qed.

(** C4 as it is stated fails: two calls of [startWorkoutSession] for the
    same day, both accepted by the backend, leave two open sessions of that
    day in the remote table. *)
Lemma second_start_opens_second_session :
  List.length
    (open_sessions "push"
       (remote (run [ StartWorkoutSession Succeeds "s1" 100 "push";
                      StartWorkoutSession Succeeds "s2" 200 "push" ]
                    initial_world))) = 2%nat.
Proof. reflexivity. Qed.

(** C4, amended: from a remote table with at most one open session per
    training day, every run of the store actions in which
    [startWorkoutSession] is only called for a day without an open session
    in the remote table keeps at most one open session per day.  The action
    itself makes no such test: once its insert is accepted, the day has one
    open session more than before. *)
Theorem one_open_session_when_starts_guarded :
  (forall (actions : list action) (w : World),
      at_most_one_open (remote w) ->
      starts_guarded actions w = true ->
      at_most_one_open (remote (run actions w)))
  /\ (forall (uuid : string) (now : Z) (dayId : string) (w : World),
         List.length
           (open_sessions dayId
              (remote (startWorkoutSession Succeeds uuid now dayId w)))
         = S (List.length (open_sessions dayId (remote w)))).
Proof.
  split.
  - induction actions as [|a rest IH]; intros w Hone Hguard; [exact Hone|].
    apply starts_guarded_cons in Hguard as [Ha Hrest].
    simpl. apply IH; [|exact Hrest]. now apply step_keeps_one_open.
  - intros uuid now dayId w. unfold open_sessions. simpl.
    rewrite filter_app_one. unfold is_open_for at 2. simpl.
    rewrite String.eqb_refl. simpl. lia.
Qed.

Lemma one_open_session_when_starts_guarded_witness :
  at_most_one_open
    (remote (run [ StartWorkoutSession Succeeds "s1" 100 "push";
                   RecordWeight Succeeds "p1" 110 "bench" 60 0;
                   StartWorkoutSession Succeeds "s2" 120 "pull";
                   CompleteWorkoutSession Succeeds Succeeds 130;
                   LoadCurrentSession Succeeds "push";
                   CompleteWorkoutSession Succeeds Succeeds 140;
                   StartWorkoutSession Succeeds "s3" 150 "push" ]
                 initial_world)).
Proof.
  apply (proj1 one_open_session_when_starts_guarded).
  - intros dayId. simpl. lia.
  - reflexivity.
Defined.

End StoreFacts.

(* ================================================================== *)
(** * More facts about the store                                       *)
(* ================================================================== *)

From Stdlib Require Import DecimalNat Ascii.

Module StoreMore.
Import Store.
Local Open Scope string_scope.

(** ** Keys *)

Fixpoint has_dash (s : string) : bool :=
  match s with
  | EmptyString => false
  | String c rest => Ascii.eqb c "-"%char || has_dash rest
  end.

Lemma digits_without_dash (d : Decimal.uint) :
  has_dash (NilEmpty.string_of_uint d) = false.
Proof. induction d; simpl; auto. Qed.

Lemma has_dash_append (a b : string) : has_dash (a ++ String "-" b) = true.
Proof.
  induction a as [|c a IH]; simpl; [reflexivity|].
  rewrite IH. apply orb_true_r.
Qed.

Lemma append_dash_inj (e e' d d' : string) :
  has_dash d = false -> has_dash d' = false ->
  e ++ String "-" d = e' ++ String "-" d' -> e = e' /\ d = d'.
Proof.
  intros Hd Hd'. revert e'.
  induction e as [|c e IH]; intros [|c' e']; simpl; intros Heq.
  - injection Heq as ->. now split.
  - injection Heq as <- ->. now rewrite has_dash_append in Hd.
  - injection Heq as -> <-. now rewrite has_dash_append in Hd'.
  - injection Heq as -> Heq. destruct (IH e' Heq) as [-> ->]. now split.
Qed.

(** X1: two pairs of an exercise and a set index that differ never share
    a key, whatever the characters of the exercise identifiers. *)
Theorem key_injective (exerciseId exerciseId' : string) (setIndex setIndex' : nat) :
  key exerciseId setIndex = key exerciseId' setIndex' ->
  exerciseId = exerciseId' /\ setIndex = setIndex'.
Proof.
  unfold key. simpl. intros Heq.
  apply append_dash_inj in Heq as [He Hd]; try apply digits_without_dash.
  split; [exact He|].
  apply DecimalNat.Unsigned.to_uint_inj.
  pose proof (NilEmpty.usu (Nat.to_uint setIndex)) as H1.
  pose proof (NilEmpty.usu (Nat.to_uint setIndex')) as H2.
  rewrite Hd in H1. rewrite H1 in H2. now injection H2.
Qed.

Lemma key_injective_witness : "bench" = "bench" /\ 12%nat = 12%nat.
Proof.
  apply (key_injective "bench" "bench" 12 12). reflexivity.
Defined.

Lemma key_differs (e e' : string) (i i' : nat) :
  (e', i') <> (e, i) -> key e i <> key e' i'.
Proof.
  intros Hne Heq. apply key_injective in Heq as [-> ->]. now apply Hne.
Qed.

(** ** recordWeight *)

(** The session [session_with_one_set] runs in. *)
Definition session_s1 : WorkoutSession :=
  {| ws_id := "s1"; ws_day_id := "push"; ws_started_at := 100;
     ws_completed_at := None; ws_notes := None; ws_created_at := 100 |}.

Lemma recordWeight_keeps_session (r : reply) (uuid : string) (now : Z)
    (e : string) (wt : Q) (i : nat) (w : World) :
  currentSession (store (recordWeight r uuid now e wt i w))
  = currentSession (store w).
Proof.
  unfold recordWeight. destruct (currentSession (store w)) eqn:Hcs;
    [|exact Hcs].
  destruct r; simpl; exact Hcs.
Qed.

(** What a call that does not raise makes of the cache. *)
Lemma recordWeight_cache (r : reply) (uuid : string) (now : Z)
    (e : string) (wt : Q) (i : nat) (w : World) (cs : WorkoutSession) :
  currentSession (store w) = Some cs ->
  (forall m, r <> Throws m) ->
  sessionExercises (store (recordWeight r uuid now e wt i w)) =
  set (sessionExercises (store w)) (key e i)
      (updatedExercise (get (sessionExercises (store w)) (key e i))
                       e (ws_id cs) wt).
Proof.
  intros Hcs Hr. unfold recordWeight. rewrite Hcs.
  destruct r as [|m|m]; [reflexivity|reflexivity|now destruct (Hr m)].
Qed.



(** The calls of [recordWeight] for one set: what the backend answers, and
    the weight. *)
Definition record_calls (exerciseId : string) (setIndex : nat)
    (calls : list (reply * string * Z * Q)) : list action :=
  map (fun c => match c with
                | (r, uuid, now, weight) =>
                    RecordWeight r uuid now exerciseId weight setIndex
                end) calls.

Definition does_not_raise (c : reply * string * Z * Q) : Prop :=
  forall m, fst (fst (fst c)) <> Throws m.

Definition sets_completed_of (exerciseId : string) (setIndex : nat) (w : World)
  : Z :=
  match get (sessionExercises (store w)) (key exerciseId setIndex) with
  | Some entry => se_sets_completed entry
  | None => 0
  end.

(** X3: during a session, the counter of a set counts the calls of
    [recordWeight] for it that did not raise: after [n] such calls in a
    row it is [n] more than before. *)
Theorem recordWeight_counts_calls (exerciseId : string) (setIndex : nat)
    (calls : list (reply * string * Z * Q)) :
  forall (w : World) (cs : WorkoutSession),
    currentSession (store w) = Some cs ->
    Forall does_not_raise calls ->
    sets_completed_of exerciseId setIndex
      (run (record_calls exerciseId setIndex calls) w)
    = (sets_completed_of exerciseId setIndex w
       + Z.of_nat (List.length calls))%Z.
Proof.
  induction calls as [|[[[r uuid] now] wt] rest IH]; intros w cs Hcs Hall.
  - simpl. lia.
  - inversion Hall as [|? ? Hr Hrest]; subst.
    simpl run. rewrite (IH _ cs).
    + unfold sets_completed_of at 1.
      rewrite (recordWeight_cache r uuid now exerciseId wt setIndex w cs Hcs Hr).
      rewrite StoreFacts.get_set_same. unfold sets_completed_of.
      simpl List.length. simpl se_sets_completed.
      destruct (get _ _); lia.
    + now rewrite recordWeight_keeps_session.
    + exact Hrest.
Qed.

Lemma recordWeight_counts_calls_witness :
  sets_completed_of "bench" 0
    (run (record_calls "bench" 0
            [ (Succeeds, "p2", 120%Z, 125 # 2);
              (Fails "timeout", "p3", 130%Z, 65%Q);
              (Succeeds, "p4", 140%Z, 65%Q) ])
         session_with_one_set)
  = (sets_completed_of "bench" 0 session_with_one_set + Z.of_nat 3)%Z.
Proof.
  apply (recordWeight_counts_calls "bench" 0
           [ (Succeeds, "p2", 120%Z, 125 # 2);
             (Fails "timeout", "p3", 130%Z, 65%Q);
             (Succeeds, "p4", 140%Z, 65%Q) ]
           session_with_one_set session_s1).
  - reflexivity.
  - repeat constructor; intros m; simpl; discriminate.
Defined.

(** ** completeSet *)

(** X4: [completeSet] sends nothing and changes neither the remote tables
    nor the session nor the error.  For a set without an entry it changes
    nothing at all; otherwise the entry of the set takes the repetitions
    and keeps its weight, its counter, its session and its exercise, and
    the entry of any other set or exercise is what it was. *)
Theorem completeSet_effect (exerciseId : string) (setIndex : nat)
    (reps : string) (w : World) :
  let w' := completeSet exerciseId setIndex reps w in
  remote w' = remote w
  /\ requests w' = requests w
  /\ currentSession (store w') = currentSession (store w)
  /\ error (store w') = error (store w)
  /\ match get (sessionExercises (store w)) (key exerciseId setIndex) with
     | None => w' = w
     | Some old =>
         (exists entry,
             get (sessionExercises (store w')) (key exerciseId setIndex)
             = Some entry
             /\ se_reps_completed entry = Some reps
             /\ se_weight_used entry = se_weight_used old
             /\ se_sets_completed entry = se_sets_completed old
             /\ se_session_id entry = se_session_id old
             /\ se_exercise_id entry = se_exercise_id old)
         /\ (forall exerciseId' setIndex',
                (exerciseId', setIndex') <> (exerciseId, setIndex) ->
                get (sessionExercises (store w')) (key exerciseId' setIndex')
                = get (sessionExercises (store w)) (key exerciseId' setIndex'))
     end.
Proof.
  unfold completeSet.
  destruct (get (sessionExercises (store w)) (key exerciseId setIndex))
    as [old|] eqn:Hget; simpl.
  - repeat split.
    + rewrite StoreFacts.get_set_same. eexists. split; [reflexivity|].
      repeat split.
    + intros e' i' Hne. apply StoreFacts.get_set_other. now apply key_differs.
  - repeat split.
Qed.

(** ** startWorkoutSession *)

(** X5: [startWorkoutSession] leaves the cached entries alone and ends
    with [isLoading] false.  When the insert is accepted, the inserted
    row, open and of the day asked for, is in the remote table and is the
    current session, and the error field is empty; when it is refused or
    raises, the message is in the error field and the current session and
    the remote tables are what they were. *)
Theorem startWorkoutSession_outcome (r : reply) (uuid : string) (now : Z)
    (dayId : string) (w : World) :
  let w' := startWorkoutSession r uuid now dayId w in
  sessionExercises (store w') = sessionExercises (store w)
  /\ isLoading (store w') = false
  /\ requests w' = InsertWorkoutSession dayId :: requests w
  /\ match r with
     | Succeeds =>
         exists data,
           currentSession (store w') = Some data
           /\ workout_sessions (remote w')
              = (workout_sessions (remote w) ++ [data])%list
           /\ ws_id data = uuid
           /\ is_open_for dayId data = true
           /\ error (store w') = None
     | Fails message | Throws message =>
         error (store w') = Some message
         /\ currentSession (store w') = currentSession (store w)
         /\ remote w' = remote w
     end.
Proof.
  destruct r; simpl; repeat split.
  eexists. split; [reflexivity|]. split; [reflexivity|]. split; [reflexivity|].
  split; [|reflexivity]. unfold is_open_for. simpl.
  now rewrite String.eqb_refl.
Qed.

(** ** loadCurrentSession *)

Lemma latest_started_none (rows : list WorkoutSession) :
  latest_started rows = None -> rows = [].
Proof.
  destruct rows as [|s rest]; simpl; [reflexivity|].
  destruct (latest_started rest) as [s'|]; [|discriminate].
  destruct (ws_started_at s <? ws_started_at s')%Z; discriminate.
Qed.

Lemma latest_started_spec (rows : list WorkoutSession) :
  forall s, latest_started rows = Some s ->
            In s rows
            /\ forall s', In s' rows -> (ws_started_at s' <= ws_started_at s)%Z.
Proof.
  induction rows as [|s0 rest IH]; simpl; intros s Hs; [discriminate|].
  destruct (latest_started rest) as [s1|] eqn:Hrest.
  - destruct (IH s1 eq_refl) as [Hin Hmax].
    destruct (Z.ltb_spec (ws_started_at s0) (ws_started_at s1)) as [Hlt|Hge];
      injection Hs as <-.
    + split; [now right|]. intros s' [<-|Hs']; [lia|now apply Hmax].
    + split; [now left|]. intros s' [<-|Hs']; [lia|].
      specialize (Hmax s' Hs'). lia.
  - injection Hs as <-. apply latest_started_none in Hrest. subst rest.
    split; [now left|]. intros s' [<-|[]]. lia.
Qed.

(** X6: [loadCurrentSession] changes neither the remote tables nor the
    cached entries nor the error field.  When the request is answered and
    the day has an open session in the remote table, the current session
    becomes an open session of that day that none of them was started
    after; in every other case the current session stays what it was, also
    when it belongs to another day. *)
Theorem loadCurrentSession_effect (r : reply) (dayId : string) (w : World) :
  let w' := loadCurrentSession r dayId w in
  remote w' = remote w
  /\ sessionExercises (store w') = sessionExercises (store w)
  /\ error (store w') = error (store w)
  /\ requests w' = SelectOpenSession dayId :: requests w
  /\ match r, open_sessions dayId (remote w) with
     | Succeeds, _ :: _ =>
         exists data,
           currentSession (store w') = Some data
           /\ In data (workout_sessions (remote w))
           /\ is_open_for dayId data = true
           /\ forall s, In s (workout_sessions (remote w)) ->
                        is_open_for dayId s = true ->
                        (ws_started_at s <= ws_started_at data)%Z
     | _, _ => currentSession (store w') = currentSession (store w)
     end.
Proof.
  unfold loadCurrentSession, open_sessions.
  destruct r; simpl; try (repeat split; destruct (filter _ _); reflexivity).
  destruct (latest_started (filter (is_open_for dayId) (workout_sessions (remote w))))
    as [data|] eqn:Hlatest.
  - simpl. repeat split.
    destruct (latest_started_spec _ _ Hlatest) as [Hin Hmax].
    destruct (filter (is_open_for dayId) (workout_sessions (remote w)))
      as [|s0 rest] eqn:Hfilter; [contradiction|].
    rewrite <- Hfilter in Hin, Hmax. apply filter_In in Hin as [Hin Hopen].
    exists data. repeat split; try assumption.
    intros s Hs Hsopen. apply Hmax. apply filter_In. now split.
  - apply latest_started_none in Hlatest. rewrite Hlatest. repeat split.
Qed.

(** ** completeWorkoutSession *)

(** X7: when no cached entry has a positive weight, [completeWorkoutSession]
    sends the update of the session and nothing else, whatever the backend
    answers, and [session_exercises] stays as it was. *)
Theorem completeWorkoutSession_without_weights (r1 r2 : reply) (now : Z)
    (w : World) (cs : WorkoutSession) :
  currentSession (store w) = Some cs ->
  Forall (fun ex => has_weight ex = false) (values (sessionExercises (store w))) ->
  let w' := completeWorkoutSession r1 r2 now w in
  requests w' = UpdateCompletedAt (ws_id cs) now :: requests w
  /\ session_exercises (remote w') = session_exercises (remote w).
Proof.
  intros Hcs Hnone. unfold completeWorkoutSession. rewrite Hcs. cbv zeta.
  assert (Hfilter : filter has_weight (values (sessionExercises (store w))) = []).
  { induction (values (sessionExercises (store w))) as [|ex rest IH];
      [reflexivity|].
    inversion Hnone as [|? ? Hex Hrest]; subst. simpl. rewrite Hex.
    now apply IH. }
  rewrite Hfilter. destruct r1; simpl; repeat split.
Qed.

Lemma completeWorkoutSession_without_weights_witness :
  let w := startWorkoutSession Succeeds "s1" 100 "push" initial_world in
  let w' := completeWorkoutSession Succeeds Succeeds 200 w in
  requests w' = UpdateCompletedAt "s1" 200 :: requests w
  /\ session_exercises (remote w') = session_exercises (remote w).
Proof.
  exact (completeWorkoutSession_without_weights Succeeds Succeeds 200
           (startWorkoutSession Succeeds "s1" 100 "push" initial_world)
           session_s1 eq_refl (Forall_nil _)).
Defined.

Lemma has_weight_positive (ex : SessionExercise) :
  has_weight ex = true <-> exists x, se_weight_used ex = Some x /\ (0 < x)%Q.
Proof.
  unfold has_weight. destruct (se_weight_used ex) as [x|].
  - rewrite negb_true_iff. split.
    + intros Hle. exists x. split; [reflexivity|].
      apply Qnot_le_lt. intros H. apply Qle_bool_iff in H. congruence.
    + intros [y [[= <-] Hpos]]. destruct (Qle_bool x 0) eqn:E; [|reflexivity].
      apply Qle_bool_iff in E. exfalso. now apply (Qlt_not_le _ _ Hpos).
  - split; [discriminate|]. intros [x [Hx _]]. discriminate.
Qed.

Lemma complete_session_closes (sessionId : string) (now : Z)
    (t : list WorkoutSession) :
  forall s, In s (complete_session sessionId now t) ->
            ws_id s = sessionId -> ws_completed_at s = Some now.
Proof.
  unfold complete_session. intros s Hin Hid.
  apply in_map_iff in Hin as [s0 [Hs0 _]].
  destruct (String.eqb_spec (ws_id s0) sessionId) as [Heq|Hne].
  - now subst s.
  - subst s. contradiction.
Qed.

(** X8: when both requests of [completeWorkoutSession] are accepted, the
    rows added to [session_exercises] are the cached entries of positive
    weight, all of them and in the order of the cache, every row of the
    current session in [workout_sessions] is completed at the time given,
    and the store has no session and no entry left. *)
Theorem completeWorkoutSession_accepted (now : Z) (w : World)
    (cs : WorkoutSession) :
  currentSession (store w) = Some cs ->
  let w' := completeWorkoutSession Succeeds Succeeds now w in
  let saved := filter has_weight (values (sessionExercises (store w))) in
  session_exercises (remote w') = (session_exercises (remote w) ++ saved)%list
  /\ (forall ex, In ex saved <->
                 In ex (values (sessionExercises (store w)))
                 /\ exists x, se_weight_used ex = Some x /\ (0 < x)%Q)
  /\ (forall s, In s (workout_sessions (remote w')) ->
                ws_id s = ws_id cs -> ws_completed_at s = Some now)
  /\ progress_history (remote w') = progress_history (remote w)
  /\ currentSession (store w') = None
  /\ sessionExercises (store w') = empty
  /\ error (store w') = error (store w).
Proof.
  intros Hcs w' saved. subst w' saved. unfold completeWorkoutSession.
  rewrite Hcs. cbv zeta.
  set (saved := filter has_weight (values (sessionExercises (store w)))).
  assert (Hsaved : forall ex, In ex saved <->
                     In ex (values (sessionExercises (store w)))
                     /\ exists x, se_weight_used ex = Some x /\ (0 < x)%Q).
  { intros ex. unfold saved. rewrite filter_In, has_weight_positive. reflexivity. }
  clearbody saved.
  destruct saved as [|ex rest]; simpl.
  - rewrite app_nil_r. split; [reflexivity|]. split; [exact Hsaved|].
    split; [intros s; apply complete_session_closes|]. repeat split.
  - split; [reflexivity|]. split; [exact Hsaved|].
    split; [intros s; apply complete_session_closes|]. repeat split.
Qed.

Lemma completeWorkoutSession_accepted_witness :
  let w := session_with_two_sets in
  let w' := completeWorkoutSession Succeeds Succeeds 200 w in
  let saved := filter has_weight (values (sessionExercises (store w))) in
  session_exercises (remote w') = (session_exercises (remote w) ++ saved)%list
  /\ (forall ex, In ex saved <->
                 In ex (values (sessionExercises (store w)))
                 /\ exists x, se_weight_used ex = Some x /\ (0 < x)%Q)
  /\ (forall s, In s (workout_sessions (remote w')) ->
                ws_id s = "s1" -> ws_completed_at s = Some 200%Z)
  /\ progress_history (remote w') = progress_history (remote w)
  /\ currentSession (store w') = None
  /\ sessionExercises (store w') = empty
  /\ error (store w') = error (store w).
Proof.
  exact (completeWorkoutSession_accepted 200 session_with_two_sets session_s1
           eq_refl).
Defined.

(** X9: a session that [completeWorkoutSession] has completed is not loaded
    again: when the update is accepted and the bulk insert does not raise,
    the [loadCurrentSession] that follows leaves either no current session
    or an open session of the day asked for, one that is not the
    completed one. *)
Theorem completed_session_not_loaded (r2 r : reply) (now : Z) (dayId : string)
    (w : World) (cs : WorkoutSession) :
  currentSession (store w) = Some cs ->
  (forall m, r2 <> Throws m) ->
  let w' := loadCurrentSession r dayId
              (completeWorkoutSession Succeeds r2 now w) in
  match currentSession (store w') with
  | Some s => ws_id s <> ws_id cs /\ is_open_for dayId s = true
  | None => True
  end.
Proof.
  intros Hcs Hr2 w'. subst w'.
  set (w1 := completeWorkoutSession Succeeds r2 now w).
  assert (Hnone : currentSession (store w1) = None).
  { unfold w1, completeWorkoutSession. rewrite Hcs. cbv zeta. simpl.
    destruct (0 <? _)%nat; [|reflexivity].
    destruct r2 as [|m|m]; [reflexivity|reflexivity|now destruct (Hr2 m)]. }
  assert (Hclosed : forall s', In s' (workout_sessions (remote w1)) ->
                               ws_id s' = ws_id cs ->
                               ws_completed_at s' = Some now).
  { unfold w1, completeWorkoutSession. rewrite Hcs. cbv zeta. simpl.
    destruct (0 <? _)%nat; [destruct r2|]; simpl;
      intros s'; apply complete_session_closes. }
  destruct (loadCurrentSession_effect r dayId w1) as [_ [_ [_ [_ Hload]]]].
  cbv zeta in Hload.
  destruct r; [|now rewrite Hload, Hnone|now rewrite Hload, Hnone].
  destruct (open_sessions dayId (remote w1)) as [|s0 rest];
    [now rewrite Hload, Hnone|].
  destruct Hload as [data [Hdata [Hin [Hopen _]]]].
  rewrite Hdata. split; [|exact Hopen].
  intros Hid. specialize (Hclosed data Hin Hid).
  unfold is_open_for in Hopen. rewrite Hclosed in Hopen.
  now rewrite andb_false_r in Hopen.
Qed.

Lemma completed_session_not_loaded_witness :
  let w' := loadCurrentSession Succeeds "pull"
              (completeWorkoutSession Succeeds Succeeds 300
                 (run [ StartWorkoutSession Succeeds "s2" 150 "pull";
                        LoadCurrentSession Succeeds "push" ]
                      session_with_one_set)) in
  match currentSession (store w') with
  | Some s => ws_id s <> "s1" /\ is_open_for "pull" s = true
  | None => True
  end.
Proof.
  exact (completed_session_not_loaded Succeeds Succeeds 300 "pull"
           (run [ StartWorkoutSession Succeeds "s2" 150 "pull";
                  LoadCurrentSession Succeeds "push" ]
                session_with_one_set)
           session_s1 eq_refl ltac:(discriminate)).
Defined.

(** ** What every run keeps *)

Lemma get_In {V : Type} (m : Map V) (k : string) (v : V) :
  get m k = Some v -> In (k, v) m.
Proof.
  induction m as [|[k' v'] rest IH]; simpl; [discriminate|].
  destruct (String.eqb_spec k' k) as [->|Hne].
  - intros [= ->]. now left.
  - intros Hget. right. now apply IH.
Qed.

Lemma Forall_set {V : Type} (P : string * V -> Prop) (m : Map V)
    (k : string) (v : V) :
  Forall P m -> P (k, v) -> Forall P (set m k v).
Proof.
  intros Hall Hkv. induction Hall as [|[k' v'] rest Hhead Htail IH]; simpl.
  - now constructor.
  - destruct (String.eqb_spec k' k) as [->|Hne]; constructor; assumption.
Qed.

(** An entry written by [recordWeight]: it is stored under the key of its
    own exercise and of some set, it has a weight, and its counter is at
    least one. *)
Definition recorded (kv : string * SessionExercise) : Prop :=
  (exists setIndex, fst kv = key (se_exercise_id (snd kv)) setIndex)
  /\ (exists x, se_weight_used (snd kv) = Some x)
  /\ (1 <= se_sets_completed (snd kv))%Z.

Lemma step_recorded (a : action) (w : World) :
  Forall recorded (sessionExercises (store w)) ->
  Forall recorded (sessionExercises (store (step a w))).
Proof.
  intros Hall.
  destruct a as [r uuid now d|r uuid now e wt i|e i reps|r1 r2 now|r d|]; simpl.
  - destruct r; exact Hall.
  - unfold recordWeight.
    destruct (currentSession (store w)) as [cs|]; [|exact Hall].
    assert (Hnew : recorded (key e i,
                             updatedExercise (get (sessionExercises (store w)) (key e i))
                                             e (ws_id cs) wt)).
    { split; [exists i; reflexivity|]. split; [eexists; reflexivity|].
      simpl. destruct (get _ _) as [old|] eqn:Hget; [|lia].
      apply get_In in Hget. rewrite Forall_forall in Hall.
      destruct (Hall _ Hget) as [_ [_ Hsets]]. simpl in Hsets. lia. }
    destruct r; simpl; try exact Hall; now apply Forall_set.
  - unfold completeSet.
    destruct (get (sessionExercises (store w)) (key e i)) as [old|] eqn:Hget;
      [|exact Hall].
    simpl. apply Forall_set; [exact Hall|].
    apply get_In in Hget. rewrite Forall_forall in Hall.
    exact (Hall _ Hget).
  - unfold completeWorkoutSession.
    destruct (currentSession (store w)); [|exact Hall].
    destruct r1; simpl; try exact Hall;
      (destruct (0 <? _)%nat; [destruct r2|]; simpl; try exact Hall; constructor).
  - unfold loadCurrentSession. destruct r; simpl; try exact Hall.
    destruct (latest_started _); exact Hall.
  - constructor.
Qed.

Lemma run_recorded (actions : list action) :
  forall w, Forall recorded (sessionExercises (store w)) ->
            Forall recorded (sessionExercises (store (run actions w))).
Proof.
  induction actions as [|a rest IH]; intros w Hall; simpl; [exact Hall|].
  apply IH. now apply step_recorded.
Qed.

(** X10: whatever actions are run from the initial state and whatever the
    backend answers, every entry of the cache is stored under the key of
    its own exercise, has a weight and counts at least one set. *)
Theorem cache_entries_recorded (actions : list action) (k : string)
    (entry : SessionExercise) :
  get (sessionExercises (store (run actions initial_world))) k = Some entry ->
  (exists setIndex, k = key (se_exercise_id entry) setIndex)
  /\ (exists x, se_weight_used entry = Some x)
  /\ (1 <= se_sets_completed entry)%Z.
Proof.
  intros Hget. apply get_In in Hget.
  pose proof (run_recorded actions initial_world (Forall_nil _)) as Hall.
  rewrite Forall_forall in Hall. exact (Hall _ Hget).
Qed.

Lemma cache_entries_recorded_witness :
  (exists setIndex, "bench-0" = key "bench" setIndex)
  /\ (exists x, Some 60%Q = Some x)
  /\ (1 <= 1)%Z.
Proof.
  exact (cache_entries_recorded
           [ StartWorkoutSession Succeeds "s1" 100 "push";
             RecordWeight Succeeds "p1" 110 "bench" 60 0;
             CompleteSet "bench" 0 "8" ]
           "bench-0"
           {| se_id := None; se_session_id := "s1"; se_exercise_id := "bench";
              se_weight_used := Some 60%Q; se_sets_completed := 1;
              se_reps_completed := Some "8"; se_notes := None;
              se_created_at := None |}
           eq_refl).
Defined.

(** [new] is [old] with rows added at its end. *)
Definition extends {A : Type} (old new : list A) : Prop :=
  exists added, new = (old ++ added)%list.

(** A session row after some actions: the same session, and completed if
    it was. *)
Definition session_kept (old new : WorkoutSession) : Prop :=
  ws_id new = ws_id old
  /\ ws_day_id new = ws_day_id old
  /\ ws_started_at new = ws_started_at old
  /\ (ws_completed_at old <> None -> ws_completed_at new <> None).

Definition sessions_kept (old new : list WorkoutSession) : Prop :=
  exists kept added, new = (kept ++ added)%list /\ Forall2 session_kept old kept.

Definition remote_kept (old new : Remote) : Prop :=
  extends (progress_history old) (progress_history new)
  /\ extends (session_exercises old) (session_exercises new)
  /\ sessions_kept (workout_sessions old) (workout_sessions new).

Lemma extends_refl {A : Type} (l : list A) : extends l l.
Proof. exists []. now rewrite app_nil_r. Qed.

Lemma extends_trans {A : Type} (l1 l2 l3 : list A) :
  extends l1 l2 -> extends l2 l3 -> extends l1 l3.
Proof.
  intros [a1 ->] [a2 ->]. exists (a1 ++ a2)%list. now rewrite app_assoc.
Qed.

Lemma session_kept_refl (s : WorkoutSession) : session_kept s s.
Proof. repeat split; auto. Qed.

Lemma sessions_kept_refl (t : list WorkoutSession) : sessions_kept t t.
Proof.
  exists t, []. split; [now rewrite app_nil_r|].
  induction t; constructor; [apply session_kept_refl|assumption].
Qed.

Lemma Forall2_session_kept_trans (t1 t2 t3 : list WorkoutSession) :
  Forall2 session_kept t1 t2 -> Forall2 session_kept t2 t3 ->
  Forall2 session_kept t1 t3.
Proof.
  intros H12. revert t3. induction H12 as [|s1 s2 r1 r2 Hs Hr IH]; intros t3 H23.
  - inversion H23. constructor.
  - inversion H23 as [|? s3 ? r3 Hs' Hr']; subst. constructor; [|now apply IH].
    destruct Hs as [Ha [Hb [Hc Hd]]], Hs' as [Ha' [Hb' [Hc' Hd']]].
    repeat split; try congruence. auto.
Qed.

Lemma sessions_kept_trans (t1 t2 t3 : list WorkoutSession) :
  sessions_kept t1 t2 -> sessions_kept t2 t3 -> sessions_kept t1 t3.
Proof.
  intros [k1 [a1 [-> H1]]] [k2 [a2 [-> H2]]].
  apply Forall2_app_inv_l in H2 as [k2a [k2b [Hk2a [Hk2b ->]]]].
  exists k2a, (k2b ++ a2)%list. split; [now rewrite app_assoc|].
  eapply Forall2_session_kept_trans; eassumption.
Qed.

Lemma complete_session_kept (sessionId : string) (now : Z)
    (t : list WorkoutSession) :
  Forall2 session_kept t (complete_session sessionId now t).
Proof.
  induction t as [|s rest IH]; simpl; constructor; [|exact IH].
  destruct (String.eqb (ws_id s) sessionId); [|apply session_kept_refl].
  repeat split. simpl. discriminate.
Qed.

Lemma step_remote_kept (a : action) (w : World) :
  remote_kept (remote w) (remote (step a w)).
Proof.
  destruct a as [r uuid now d|r uuid now e wt i|e i reps|r1 r2 now|r d|]; simpl.
  - destruct r; simpl; repeat split;
      try apply extends_refl; try apply sessions_kept_refl.
    eexists _, [_]. split; [reflexivity|].
    destruct (sessions_kept_refl (workout_sessions (remote w)))
      as [k [a [Heq H]]].
    clear Heq H. induction (workout_sessions (remote w)); constructor;
      [apply session_kept_refl|assumption].
  - unfold recordWeight. destruct (currentSession (store w));
      [|repeat split; try apply extends_refl; apply sessions_kept_refl].
    destruct r; simpl; repeat split;
      try apply extends_refl; try apply sessions_kept_refl.
    eexists. reflexivity.
  - unfold completeSet. destruct (get _ _); simpl; repeat split;
      try apply extends_refl; apply sessions_kept_refl.
  - unfold completeWorkoutSession.
    destruct (currentSession (store w)) as [cs|];
      [|repeat split; try apply extends_refl; apply sessions_kept_refl].
    cbv zeta.
    assert (Hclose : sessions_kept (workout_sessions (remote w))
                       (complete_session (ws_id cs) now
                                         (workout_sessions (remote w)))).
    { eexists _, []. split; [now rewrite app_nil_r|apply complete_session_kept]. }
    destruct r1; simpl;
      [destruct (0 <? _)%nat; [destruct r2|]
      |destruct (0 <? _)%nat; [destruct r2|]
      |];
      simpl; repeat split;
      try apply extends_refl; try apply sessions_kept_refl;
      try exact Hclose; try (eexists; reflexivity).
  - unfold loadCurrentSession. destruct r; simpl;
      try (destruct (latest_started _)); simpl; repeat split;
      try apply extends_refl; apply sessions_kept_refl.
  - repeat split; try apply extends_refl; apply sessions_kept_refl.
Qed.

(** X11: the actions never delete or rewrite what the remote tables hold.
    After any run, [progress_history] and [session_exercises] are what
    they were with rows added at the end, and [workout_sessions] begins
    with the sessions it had, each with its identifier, day and start time,
    and completed if it was, followed by the sessions added. *)
Theorem remote_tables_kept (actions : list action) :
  forall w : World,
    extends (progress_history (remote w))
            (progress_history (remote (run actions w)))
    /\ extends (session_exercises (remote w))
               (session_exercises (remote (run actions w)))
    /\ sessions_kept (workout_sessions (remote w))
                     (workout_sessions (remote (run actions w))).
Proof.
  induction actions as [|a rest IH]; intros w; simpl.
  - repeat split; try apply extends_refl; apply sessions_kept_refl.
  - destruct (step_remote_kept a w) as [H1 [H2 H3]].
    destruct (IH (step a w)) as [H1' [H2' H3']].
    repeat split;
      [eapply extends_trans|eapply extends_trans|eapply sessions_kept_trans];
      eassumption.
Qed.

(** ** Rebuilding the Map from any stored array *)

Lemma find_app {A : Type} (f : A -> bool) (l1 l2 : list A) :
  find f (l1 ++ l2) =
  match find f l1 with Some x => Some x | None => find f l2 end.
Proof.
  induction l1 as [|x l1 IH]; simpl; [reflexivity|].
  destruct (f x); [reflexivity|exact IH].
Qed.

Lemma fold_set_get {V : Type} (l : list (string * V)) :
  forall (acc : Map V) (k : string),
    get (fold_left (fun m kv => set m (fst kv) (snd kv)) l acc) k =
    match find (fun kv => String.eqb (fst kv) k) (rev l) with
    | Some kv => Some (snd kv)
    | None => get acc k
    end.
Proof.
  induction l as [|[k0 v0] rest IH]; intros acc k; simpl; [reflexivity|].
  rewrite IH, find_app. simpl.
  destruct (find _ (rev rest)); [reflexivity|].
  destruct (String.eqb_spec k0 k) as [->|Hne].
  - apply StoreFacts.get_set_same.
  - now apply StoreFacts.get_set_other.
Qed.

Lemma fold_set_well_formed {V : Type} (l : list (string * V)) :
  forall acc : Map V,
    well_formed acc ->
    well_formed (fold_left (fun m kv => set m (fst kv) (snd kv)) l acc).
Proof.
  induction l as [|[k0 v0] rest IH]; intros acc Hwf; simpl; [exact Hwf|].
  apply IH. now apply StoreFacts.set_well_formed.
Qed.

(** X12: whatever array of pairs the storage gives back, with repeated
    keys or not, the callback of [onRehydrateStorage] turns it into a Map
    of pairwise distinct keys in which a key has the value of the last pair
    of the array that names it; the other fields are kept, and a state that
    holds a Map already, or no state, is left as it is. *)
Theorem onRehydrateStorage_any_array :
  (forall (state : Rehydrating) (a : list (string * SessionExercise)),
      h_sessionExercises state = IsArray a ->
      exists m,
        onRehydrateStorage (Some state) =
          Some {| h_currentSession := h_currentSession state;
                  h_sessionExercises := IsMap m;
                  h_isLoading := h_isLoading state;
                  h_error := h_error state |}
        /\ well_formed m
        /\ forall k, get m k =
                     option_map snd
                       (find (fun kv => String.eqb (fst kv) k) (rev a)))
  /\ (forall state, onRehydrateStorage (onRehydrateStorage state)
                    = onRehydrateStorage state).
Proof.
  split.
  - intros state a Ha. exists (new_Map a). unfold onRehydrateStorage.
    rewrite Ha. split; [reflexivity|]. split.
    + apply fold_set_well_formed. constructor.
    + intros k. unfold new_Map. rewrite fold_set_get.
      destruct (find _ (rev a)); reflexivity.
  - intros [state|]; [|reflexivity]. unfold onRehydrateStorage.
    destruct (h_sessionExercises state) eqn:Hs; simpl; [|reflexivity].
    now rewrite Hs.
Qed.

End StoreMore.

(* ================================================================== *)
(** * Facts about the weight input and the session view               *)
(* ================================================================== *)

Module InputFacts.
Import Store WeightInput.
Local Open Scope Q_scope.

(** X13: the weight kept by [handleWeightChange] lies between 0 and 1000
    whatever number is given, and is the number given when that lies
    between 0 and 1000. *)
Theorem validWeight_range (newWeight : Q) :
  0 <= validWeight newWeight
  /\ validWeight newWeight <= 1000
  /\ (0 <= newWeight -> newWeight <= 1000 -> validWeight newWeight == newWeight).
Proof.
  unfold validWeight. split; [apply Q.le_max_l|]. split.
  - apply Q.max_lub; [discriminate|apply Q.le_min_l].
  - intros Hlo Hhi. rewrite Q.min_r by exact Hhi. now apply Q.max_r.
Qed.







Import SessionView.

(** X15: marking a set completed makes [isSetCompleted] true for that set
    and changes it for no other set or exercise; and an input of the
    session view marks its set as soon as its weight is changed, before
    anything is recorded. *)
Theorem markSetCompleted_marks_one_set (exerciseId : string) (setIndex : nat)
    (completedSets : Map bool) :
  isSetCompleted exerciseId setIndex
    (markSetCompleted exerciseId setIndex completedSets) = true
  /\ (forall exerciseId' setIndex',
         (exerciseId', setIndex') <> (exerciseId, setIndex) ->
         isSetCompleted exerciseId' setIndex'
           (markSetCompleted exerciseId setIndex completedSets)
         = isSetCompleted exerciseId' setIndex' completedSets)
  /\ (forall newWeight s,
         isSetCompleted exerciseId setIndex
           (snd (handleWeightChange (Some (onWeightChange exerciseId setIndex))
                                    newWeight s completedSets)) = true).
Proof.
  unfold isSetCompleted, markSetCompleted, onWeightChange. cbv zeta.
  split; [|split].
  - now rewrite StoreFacts.get_set_same.
  - intros e' i' Hne.
    rewrite StoreFacts.get_set_other; [reflexivity|].
    now apply StoreMore.key_differs.
  - intros x s. simpl. unfold markSetCompleted. cbv zeta.
    now rewrite StoreFacts.get_set_same.
Qed.

End InputFacts.

(* ================================================================== *)
(** * Facts about the chart and its trend line                         *)
(* ================================================================== *)

Module ChartFacts.
Import Trend Chart.

Section AnyNumber.
Context {T : Type} `{Number T}.

Lemma calculateTrendLine_length (data : list T) :
  List.length (calculateTrendLine data) = List.length data.
Proof.
  unfold calculateTrendLine. destruct (List.length data <? 2)%nat; [reflexivity|].
  destruct (trendCoefficients data). apply TrendFacts.map_from_length.
Qed.


Definition not_later (a b : WeightEntry T) : Prop :=
  (created_at a <= created_at b)%Z.

Lemma insert_asc_perm (e : WeightEntry T) (l : list (WeightEntry T)) :
  Permutation (e :: l) (insert_asc e l).
Proof.
  induction l as [|e' rest IH]; simpl; [reflexivity|].
  destruct (created_at e <=? created_at e')%Z; [reflexivity|].
  rewrite perm_swap. now constructor.
Qed.

Lemma insert_asc_sorted (e : WeightEntry T) (l : list (WeightEntry T)) :
  StronglySorted not_later l -> StronglySorted not_later (insert_asc e l).
Proof.
  induction 1 as [|e' rest Hsorted IH Hall]; simpl.
  - repeat constructor.
  - destruct (Z.leb_spec (created_at e) (created_at e')) as [Hle|Hlt].
    + constructor; [now constructor|]. constructor; [exact Hle|].
      eapply Forall_impl; [|exact Hall]. unfold not_later. intros; lia.
    + constructor; [exact IH|].
      rewrite <- insert_asc_perm. constructor; [|exact Hall].
      unfold not_later. lia.
Qed.

Lemma sort_by_created_at_perm (data : list (WeightEntry T)) :
  Permutation data (sort_by_created_at data).
Proof.
  induction data as [|e rest IH]; simpl; [reflexivity|].
  rewrite <- insert_asc_perm. now constructor.
Qed.

Lemma sort_by_created_at_sorted (data : list (WeightEntry T)) :
  StronglySorted not_later (sort_by_created_at data).
Proof.
  induction data as [|e rest IH]; simpl; [constructor|].
  now apply insert_asc_sorted.
Qed.

(** X16: whatever the order of the entries given to the chart, its points
    are the entries in the order of their times: the labels and the weights
    are read off one rearrangement of the entries in which no entry comes
    before an earlier one, and the trend line has one value for each
    weight. *)
Theorem chartData_chronological (data : list (WeightEntry T)) :
  exists sortedData,
    Permutation data sortedData
    /\ StronglySorted not_later sortedData
    /\ labels (chartData data) = map created_at sortedData
    /\ weights (chartData data) = map weight sortedData
    /\ List.length (trendLine (chartData data)) = List.length data.
Proof.
  exists (sort_by_created_at data).
  split; [apply sort_by_created_at_perm|].
  split; [apply sort_by_created_at_sorted|].
  split; [reflexivity|]. split; [reflexivity|].
  unfold chartData. simpl. rewrite calculateTrendLine_length, length_map.
  symmetry. apply Permutation_length, sort_by_created_at_perm.
Qed.

End AnyNumber.

Local Open Scope Q_scope.
Import TrendFacts.

(** ** Over the rationals *)







End ChartFacts.

(* ================================================================== *)
(** * More facts about the progress statistics                         *)
(* ================================================================== *)

Module StatsMore.
Import Stats StatsFacts.
Local Open Scope Q_scope.

Lemma weight_among_observations (table : list progress_history) (pid : string)
    (sd ed : option Z) (r : progress_data_row) :
  In r (progress_data table pid sd ed) ->
  exists ph, In ph (observations table pid sd ed) /\ weight ph = pd_weight r.
Proof.
  intros Hin. apply (in_map pd_weight) in Hin.
  apply (Permutation_in _ (Permutation_sym (progress_data_weights table pid sd ed)))
    in Hin.
  apply in_map_iff in Hin as [ph [Hw Hph]]. now exists ph.
Qed.

Lemma observation_among_rows (table : list progress_history) (pid : string)
    (sd ed : option Z) (ph : progress_history) :
  In ph (observations table pid sd ed) ->
  exists r, In r (progress_data table pid sd ed) /\ pd_weight r = weight ph.
Proof.
  intros Hin. apply (in_map weight) in Hin.
  apply (Permutation_in _ (progress_data_weights table pid sd ed)) in Hin.
  apply in_map_iff in Hin as [r [Hw Hr]]. now exists r.
Qed.

(** X19: when every observation has a positive weight, the function
    raises no error: it returns a row, and the progression of that row is
    not negative. *)
Theorem positive_weights_progress (table : list progress_history)
    (pid : string) (sd ed : option Z) :
  Forall (fun ph => 0 < weight ph) (observations table pid sd ed) ->
  exists r p,
    get_exercise_progress_stats table pid sd ed = Returns r
    /\ weight_progression r = Some p
    /\ 0 <= p.
Proof.
  intros Hpos. rewrite Forall_forall in Hpos.
  destruct (observations table pid sd ed) as [|ph0 rest] eqn:Hobs.
  - rewrite (empty_stats_total table pid sd ed Hobs).
    eexists. exists 0. repeat split. apply Qle_refl.
  - rewrite <- Hobs in Hpos.
    assert (Hn : (0 < List.length (observations table pid sd ed))%nat)
      by (rewrite Hobs; simpl; lia).
    clear Hobs.
    assert (Hlen : (0 < List.length (progress_data table pid sd ed))%nat)
      by now rewrite progress_data_length.
    destruct (MIN_nonempty _ Hlen) as [mn Hmn].
    destruct (latest_weight_spec table pid sd ed Hn) as [ph [Hlt [Hin _]]].
    rewrite (get_exercise_progress_stats_cases table pid sd ed mn (weight ph)
               Hn Hmn Hlt).
    destruct (1 <? _)%Z.
    + destruct (MIN_attained _ _ Hmn) as [r [Hr Hmr]].
      destruct (weight_among_observations table pid sd ed r Hr) as [ph' [Hph' Hw']].
      assert (Hmn_pos : 0 < mn) by (rewrite Hmr, <- Hw'; now apply Hpos).
      destruct (Qeq_bool mn 0) eqn:E.
      * apply Qeq_bool_iff in E. lra.
      * destruct (observation_among_rows table pid sd ed ph Hin) as [r' [Hr' Hwr']].
        pose proof (MIN_lower _ _ Hmn) as Hlow. rewrite Forall_forall in Hlow.
        specialize (Hlow r' Hr'). rewrite Hwr' in Hlow.
        eexists. eexists. split; [reflexivity|]. split; [reflexivity|].
        apply Qmult_le_0_compat; [|discriminate].
        apply Qle_shift_div_l; [exact Hmn_pos|]. lra.
    + eexists. exists 0. repeat split. apply Qle_refl.
Qed.

Lemma positive_weights_progress_witness :
  exists r p,
    get_exercise_progress_stats bench_history "bench" None None = Returns r
    /\ weight_progression r = Some p
    /\ 0 <= p.
Proof.
  apply (positive_weights_progress bench_history "bench" None None).
  repeat constructor.
Defined.

(** X20: over a single observation the maximum, the minimum and the
    latest weight are its weight, the mean equals it, the count is 1 and
    the progression is 0. *)
Theorem single_observation_stats (table : list progress_history)
    (pid : string) (sd ed : option Z) (ph : progress_history) :
  observations table pid sd ed = [ph] ->
  exists r av,
    get_exercise_progress_stats table pid sd ed = Returns r
    /\ total_sessions r = 1%Z
    /\ max_weight r = Some (weight ph)
    /\ min_weight r = Some (weight ph)
    /\ latest_weight r = Some (weight ph)
    /\ avg_weight r = Some av /\ av == weight ph
    /\ weight_progression r = Some 0.
Proof.
  intros Hobs.
  assert (Hpd : progress_data table pid sd ed =
                [ {| pd_weight := weight ph; pd_created_at := created_at ph;
                     rn := 1 |} ]).
  { unfold progress_data. fold (observations table pid sd ed).
    now rewrite Hobs. }
  rewrite (get_exercise_progress_stats_cases table pid sd ed
             (weight ph) (weight ph));
    try (rewrite Hpd; reflexivity); [|rewrite Hobs; simpl; lia].
  rewrite Hobs, Hpd. simpl.
  eexists. eexists. repeat split.
  unfold SUM. simpl. field.
Qed.

Lemma single_observation_stats_witness :
  exists r av,
    get_exercise_progress_stats bench_history "squat" None None = Returns r
    /\ total_sessions r = 1%Z
    /\ max_weight r = Some 100
    /\ min_weight r = Some 100
    /\ latest_weight r = Some 100
    /\ avg_weight r = Some av /\ av == 100
    /\ weight_progression r = Some 0.
Proof.
  exact (single_observation_stats bench_history "squat" None None
           {| id := "c"; exercise_id := "squat"; weight := 100; notes := None;
              created_at := 3 |} eq_refl).
Defined.

End StatsMore.

(* ================================================================== *)
(** * Facts about the PDF report                                       *)
(* ================================================================== *)

Module ReportFacts.
Import Report.
Local Open Scope Q_scope.

(** ** The best exercise *)

Lemma better_spec (prev current : ProgressStats) :
  (weight_progression prev <= weight_progression current
   /\ better prev current = current)
  \/ (weight_progression current < weight_progression prev
      /\ better prev current = prev).
Proof.
  unfold better.
  destruct (Qle_bool (weight_progression prev) (weight_progression current)) eqn:E.
  - left. split; [now apply Qle_bool_iff|reflexivity].
  - right. split; [|reflexivity]. apply Qnot_le_lt. intros H.
    apply Qle_bool_iff in H. congruence.
Qed.

Lemma fold_better_last_greatest (rest : list ProgressStats) :
  forall first,
    exists before after,
      first :: rest = (before ++ fold_left better rest first :: after)%list
      /\ Forall (fun s => weight_progression s
                          <= weight_progression (fold_left better rest first))
                before
      /\ Forall (fun s => weight_progression s
                          < weight_progression (fold_left better rest first))
                after.
Proof.
  induction rest as [|x rest IH]; intros first; simpl.
  - exists [], []. repeat split; constructor.
  - destruct (better_spec first x) as [[Hle ->]|[Hlt ->]].
    + destruct (IH x) as [before [after [Heq [Hb Ha]]]].
      remember (fold_left better rest x) as best eqn:Hbest. clear Hbest.
      exists (first :: before), after. split; [simpl; now rewrite Heq|].
      split; [|exact Ha]. constructor; [|exact Hb].
      eapply Qle_trans; [exact Hle|].
      destruct before as [|b before]; injection Heq as Hx _; subst x.
      * apply Qle_refl.
      * now inversion Hb.
    + destruct (IH first) as [before [after [Heq [Hb Ha]]]].
      remember (fold_left better rest first) as best eqn:Hbest. clear Hbest.
      destruct before as [|b before]; injection Heq as Hfirst Hrest; subst.
      * exists [], (x :: after). split; [reflexivity|].
        split; [constructor|]. now constructor.
      * exists (b :: x :: before), after. split; [reflexivity|].
        split; [|exact Ha].
        inversion Hb as [|? ? Hhead Hbefore]; subst.
        constructor; [exact Hhead|]. constructor; [|exact Hbefore].
        apply Qlt_le_weak. eapply Qlt_le_trans; eassumption.
Qed.

(** X21: over no statistics [getBestExercise] raises; otherwise it names
    an exercise of the list whose progression none exceeds, and the last
    such one: every exercise after it has a smaller progression. *)
Theorem getBestExercise_last_greatest (stats : list ProgressStats) :
  match getBestExercise stats with
  | None => stats = []
  | Some best =>
      exists before after,
        stats = (before ++ best :: after)%list
        /\ Forall (fun s => weight_progression s <= weight_progression best)
                  before
        /\ Forall (fun s => weight_progression s < weight_progression best)
                  after
  end.
Proof.
  destruct stats as [|first rest]; simpl; [reflexivity|].
  apply fold_better_last_greatest.
Qed.

(** ** The layout *)
























(** ** The footer *)








End ReportFacts.
